(** * OnlineSketch: the streaming matrix-sketch recommender

    A shallow embedding of [src/core/online_sketch.py], and of the split of
    the stream in [src/experiment.py].

    Conventions of the embedding:
    - a NumPy float is an (idealised) real number of the Standard Library,
      and the arithmetic of arrays is exact; two points where the floats of
      the code part from the real numbers are kept apart: the power of a
      float scalar, which is the power function of the C library and no
      multiplication, is a parameter ([pow2]), and the square root of a
      negative number, which is NaN in NumPy, is an outcome of its own
      ([InvalidValue]);
    - a 1-D array is a list, a 2-D array is the list of its rows (row-major,
      as NumPy stores it);
    - a Python exception is a value of [error]; an operation that mutates the
      model and may raise returns the model as it is when the exception
      leaves the method, together with the outcome;
    - [numpy.random.normal] reads an arbitrary stream of draws [rnd], the
      model remembers how many draws it has consumed;
    - [numpy.linalg.svd] and the inherited [scores2recos] are parameters. *)

From Stdlib Require Import Reals Lra Lia ZArith.
From stdpp Require Import gmap list.

Abbreviation float := Rdefinitions.R (only parsing).

#[global] Instance float_eq_dec : EqDecision float := Req_dec_T.
#[global] Instance float_le_dec (x y : float) : Decision (x <= y)%R := Rle_dec x y.

Module OnlineSketch.

(** ** Arrays *)

Abbreviation vector := (list float).
Abbreviation matrix := (list (list float)).

Definition nrows (M : matrix) : nat := length M.

Definition ncols (M : matrix) : nat :=
  match M with
  | [] => 0
  | r :: _ => length r
  end.

(** [np.zeros(n)] and [np.zeros((r, c))] *)
Definition zeros (n : nat) : vector := replicate n 0%R.
Definition zeros2 (r c : nat) : matrix := replicate r (zeros c).

(** ** Exceptions *)

(** [InvalidValue] is no exception of Python. It marks the point where the
    arithmetic of NumPy yields NaN ([RuntimeWarning: invalid value
    encountered in sqrt]), a value that the real numbers of this model do not
    have: the code goes on with NaN, the account of the model ends there. *)
Inductive error : Set :=
  | KeyError | IndexError | ValueError | AttributeError | LinAlgError
  | InvalidValue.

Inductive result (A : Type) : Type :=
  | Ok (a : A)
  | Raise (e : error).
Arguments Ok {A} a.
Arguments Raise {A} e.

Definition bind {A B : Type} (r : result A) (f : A -> result B) : result B :=
  match r with
  | Ok a => f a
  | Raise e => Raise e
  end.

Notation "'let*' x ':=' r 'in' c" := (bind r (fun x => c))
  (at level 10, x name, r at level 100, c at level 200).

(** [d[key]] on a dict that may lack the key *)
Definition getitem {A : Type} (field : option A) : result A :=
  match field with
  | Some a => Ok a
  | None => Raise KeyError
  end.

(** Position addressed by a NumPy index into an axis of length [n]:
    negative indices count from the end, anything else is out of bounds. *)
Definition norm_index (n : nat) (i : Z) : option nat :=
  if bool_decide (0 <= i < Z.of_nat n)%Z then Some (Z.to_nat i)
  else if bool_decide (- Z.of_nat n <= i < 0)%Z then Some (Z.to_nat (Z.of_nat n + i))
  else None.

(** [a[i] = v] on a 1-D array *)
Definition setitem (a : vector) (i : Z) (v : float) : result vector :=
  match norm_index (length a) i with
  | Some j => Ok (<[j := v]> a)
  | None => Raise IndexError
  end.

(** ** Linear algebra *)

Definition sum (v : vector) : float := foldr Rplus 0%R v.

(** [np.dot] of two 1-D arrays of one length *)
Definition dot (u v : vector) : float := sum (zip_with Rmult u v).

(** column [j] of a 2-D array *)
Definition column (M : matrix) (j : nat) : vector :=
  map (fun r => nth j r 0%R) M.

Definition columns (M : matrix) : list vector :=
  map (column M) (seq 0 (ncols M)).

(** [M.T] *)
Definition transpose (M : matrix) : matrix := columns M.

(** [np.dot(M, v)], 2-D by 1-D: the inner dimensions must agree *)
Definition mat_vec (M : matrix) (v : vector) : result vector :=
  if decide (ncols M = length v) then Ok (map (fun r => dot r v) M)
  else Raise ValueError.

(** [np.dot(M, N)], 2-D by 2-D: the inner dimensions must agree *)
Definition mat_mul (M N : matrix) : result matrix :=
  if decide (ncols M = nrows N)
  then Ok (map (fun r => map (fun c => dot r c) (columns N)) M)
  else Raise ValueError.

(** [np.diag(s)] *)
Definition diag (s : vector) : matrix :=
  imap (fun i x => zeros i ++ x :: zeros (length s - S i)) s.

(** [np.identity(n)] *)
Definition identity (n : nat) : matrix := diag (replicate n 1%R).

(** elementwise [M - N] *)
Definition mat_sub (M N : matrix) : matrix :=
  zip_with (zip_with Rminus) M N.

(** L2 norm of a 1-D array *)
Definition norm (v : vector) : float := sqrt (sum (map (fun x => x * x)%R v)).

(** squared Frobenius norm of a 2-D array *)
Definition frob2 (M : matrix) : float :=
  sum (map (fun r => sum (map (fun x => x * x)%R r)) M).

(** [sklearn.preprocessing.normalize(np.array([v]), norm='l2').flatten()]:
    a row is divided by its norm, a row of norm zero is left as it is. *)
Definition normalize (v : vector) : vector :=
  let n := norm v in
  let n := if decide (n = 0%R) then 1%R else n in
  map (fun x => x / n)%R v.

(** [np.isclose(a, b)] with the default tolerances *)
Definition rtol : float := (/ 100000)%R.
Definition atol : float := (/ 100000000)%R.

Definition isclose (a b : float) : bool :=
  bool_decide (Rabs (a - b) <= atol + rtol * Rabs b)%R.

(** [np.where(np.isclose(M, 0).all(0) == 1)[0]]: the all-zero columns *)
Definition zero_cols (M : matrix) : list nat :=
  filter (fun j => forallb (fun x => isclose x 0%R) (column M j) = true)
         (seq 0 (ncols M)).

(** [M[:, j] = y] *)
Definition set_column (M : matrix) (j : nat) (y : vector) : result matrix :=
  if decide (j < ncols M) then
    if decide (length y = nrows M)
    then Ok (zip_with (fun r v => <[j := v]> r) M y)
    else Raise ValueError
  else Raise IndexError.

(** [np.concatenate((M[:, :offset], col, M[:, offset:]), axis=1)] for a
    column [col] that has as many entries as [M] has rows *)
Definition insert_column (M : matrix) (offset : nat) (col : vector) : matrix :=
  zip_with (fun r c => take offset r ++ c :: drop offset r) M col.

(** ** Constants of the model *)

(** [self.k = 40]: dimension of projected vectors *)
Definition k : nat := 40.

(** [self.ell = int(np.sqrt(self.k))] *)
Definition ell : nat := Nat.sqrt k.

(** ** Events and model state *)

(** The sizes of the three context blocks, [contexts['user']],
    [contexts['others']] and [contexts['item']]. *)
Record contexts_t : Set := mkContexts {
  ctx_user : nat;
  ctx_others : nat;
  ctx_item : nat;
}.

(** An event is a dict; a field is [None] when the dict lacks the key. *)
Record event : Type := mkEvent {
  u_index : option Z;
  i_index : option Z;
  user : option vector;
  others : option vector;
  item : option vector;
}.

(** [i_mat] is first a SciPy CSR matrix, then the dense column of the first
    item, then CSR again; the two kinds answer [.size] differently. *)
Inductive item_store : Type :=
  | Dense (m : matrix)
  | Csr (m : matrix).

Definition store_rows (s : item_store) : matrix :=
  match s with
  | Dense m => m
  | Csr m => m
  end.

(** number of stored (non-zero) entries of a sparse matrix *)
Fixpoint count_nonzero (v : vector) : nat :=
  match v with
  | [] => 0
  | x :: v' => if decide (x = 0%R) then count_nonzero v' else S (count_nonzero v')
  end.

Definition nnz (m : matrix) : nat := sum_list (map count_nonzero m).

(** [i_mat.size]: the number of elements of an ndarray, the number of
    stored entries of a sparse matrix *)
Definition store_size (s : item_store) : nat :=
  match s with
  | Dense m => nrows m * ncols m
  | Csr m => nnz m
  end.

Record state : Type := mkState {
  contexts : contexts_t;
  p : nat;
  n_user : nat;
  users : gmap Z (gset Z);      (* u_index -> {'observed': set()} *)
  n_item : nat;
  items : gmap Z unit;          (* i_index -> {} *)
  i_mat : item_store;
  B : matrix;
  R : matrix;
  U : option matrix;            (* the attribute exists once update has run *)
  gen : nat;                    (* draws consumed from the random stream *)
}.

Definition set_i_mat (st : state) (m : item_store) : state :=
  mkState (contexts st) (p st) (n_user st) (users st) (n_item st) (items st)
          m (B st) (R st) (U st) (gen st).

Definition set_B (st : state) (b : matrix) : state :=
  mkState (contexts st) (p st) (n_user st) (users st) (n_item st) (items st)
          (i_mat st) b (R st) (U st) (gen st).

Definition set_U (st : state) (u : matrix) : state :=
  mkState (contexts st) (p st) (n_user st) (users st) (n_item st) (items st)
          (i_mat st) (B st) (R st) (Some u) (gen st).

Section Model.

(** the stream read by [np.random.normal] *)
Variable rnd : nat -> float.

(** [np.random.normal(0., 1 / k, (r, c))] read at position [g] *)
Definition normal (g r c : nat) : matrix :=
  map (fun i => map (fun j => rnd (g + i * c + j)) (seq 0 c)) (seq 0 r).

(** [np.random.normal(0., 1 / k, (k, 1))] read at position [g], flattened *)
Definition normal_col (g : nat) : vector :=
  map (fun i => rnd (g + i)) (seq 0 k).

(** [_Base__clear]; it resets neither [p] nor the basis [U]. *)
Definition clear (st : state) : state :=
  {| contexts := contexts st;
     p := p st;
     n_user := 0;
     users := ∅;
     n_item := 0;
     items := ∅;
     i_mat := Csr [[]];
     B := zeros2 k ell;
     R := normal (gen st) k (p st);
     U := U st;
     gen := gen st + k * p st |}.

(** [__init__], the random stream being at position [g] *)
Definition init (c : contexts_t) (g : nat) : state :=
  clear {| contexts := c;
           p := ctx_user c + ctx_others c + ctx_item c;
           n_user := 0; users := ∅; n_item := 0; items := ∅;
           i_mat := Csr [[]]; B := []; R := []; U := None; gen := g |}.

(** Lines 43-50 of [_Base__check]: a new user *)
Definition register_user (st : state) (u : Z) : state :=
  let n_user' := n_user st + 1 in
  let col := normal_col (gen st) in
  let offset := n_user' - 1 in
  {| contexts := contexts st;
     p := p st + 1;
     n_user := n_user';
     users := <[u := ∅]> (users st);
     n_item := n_item st;
     items := items st;
     i_mat := i_mat st;
     B := B st;
     R := insert_column (R st) offset col;
     U := U st;
     gen := gen st + k |}.

(** Lines 54-56: the bookkeeping of a new item *)
Definition allocate_item (st : state) (i : Z) : state :=
  {| contexts := contexts st;
     p := p st + 1;
     n_user := n_user st;
     users := users st;
     n_item := n_item st + 1;
     items := <[i := ()]> (items st);
     i_mat := i_mat st;
     B := B st;
     R := R st;
     U := U st;
     gen := gen st |}.

(** Lines 70-72: the column of [R] of a new item *)
Definition grow_R_item (st : state) : state :=
  let col := normal_col (gen st) in
  let offset :=
    n_user st + ctx_user (contexts st) + ctx_others (contexts st) + n_item st - 1 in
  {| contexts := contexts st;
     p := p st;
     n_user := n_user st;
     users := users st;
     n_item := n_item st;
     items := items st;
     i_mat := i_mat st;
     B := B st;
     R := insert_column (R st) offset col;
     U := U st;
     gen := gen st + k |}.

(** Lines 64-66: [sp.vstack((a, z, c))] of the rows [a] of the store above
    the new row, the zero row [z] and the rows [c] below. SciPy turns the
    blocks into an array of blocks by [np.asarray(..., dtype='object')].
    The slices of a CSR matrix are sparse matrices, and the array of blocks
    is 2-D. The slices of an ndarray are ndarrays, as [z] is, all of the
    width of the store: three ndarrays of one shape make an array of four
    dimensions, which SciPy refuses with [ValueError('blocks must be 2-D')];
    ndarrays of different heights stay apart as blocks and are stacked. *)
Definition vstack (s : item_store) (a z c : matrix) : result matrix :=
  match s with
  | Dense _ =>
      if decide (nrows a = nrows z /\ nrows c = nrows z) then Raise ValueError
      else Ok (a ++ z ++ c)
  | Csr _ => Ok (a ++ z ++ c)
  end.

(** Lines 54-72: a new item *)
Definition register_item (st : state) (i : Z) (d : event) : state * result unit :=
  let st := allocate_item st i in
  match item d with
  | None => (st, Raise KeyError)
  | Some ctx =>
      (* a column: one entry per row *)
      let i_vec : matrix := map (fun x => [x]) (zeros (n_item st) ++ ctx) in
      if decide (store_size (i_mat st) = 0) then
        (grow_R_item (set_i_mat st (Dense i_vec)), Ok ())
      else
        let m := store_rows (i_mat st) in
        let z := zeros2 1 (ncols m) in
        match vstack (i_mat st) (take (n_item st - 1) m) z
                     (drop (n_item st - 1) m) with
        | Raise e => (st, Raise e)
        | Ok m =>
            let st := set_i_mat st (Csr m) in
            (* sp.hstack refuses blocks of different heights *)
            if decide (nrows m = nrows i_vec) then
              (grow_R_item (set_i_mat st (Csr (zip_with app m i_vec))), Ok ())
            else (st, Raise ValueError)
        end
  end.

(** [_Base__check] *)
Definition check (st : state) (d : event) : state * result unit :=
  match u_index d with
  | None => (st, Raise KeyError)
  | Some u =>
      let st := if decide (is_Some (users st !! u)) then st
                else register_user st u in
      match i_index d with
      | None => (st, Raise KeyError)
      | Some i =>
          if decide (is_Some (items st !! i)) then (st, Ok ())
          else register_item st i d
      end
  end.

(** [numpy.linalg.svd(M, full_matrices=False)]: [None] when LAPACK does not
    converge, else the triple [(U, s, V)], [M = U diag(s) V] *)
Variable svd : matrix -> option (matrix * vector * matrix).

(** The inherited [scores2recos] of the base class, which is not among the
    sources: it turns the scores of the targets into the answer. *)
Variable recos : Type.
Variable scores2recos : vector -> list Z -> Z -> recos.

(** Lines 75-81 of [_Base__update]: the full feature vector *)
Definition feature_vector (st : state) (d : event) : result vector :=
  let* ctx_u := getitem (user d) in
  let u := zeros (n_user st) ++ ctx_u in
  let* u_idx := getitem (u_index d) in
  let* u := setitem u u_idx 1%R in
  let* ctx_i := getitem (item d) in
  let i := zeros (n_item st) ++ ctx_i in
  let* i_idx := getitem (i_index d) in
  let* i := setitem i i_idx 1%R in
  let* o := getitem (others d) in
  Ok (u ++ o ++ i).

(** Line 83: random projection *)
Definition project (st : state) (d : event) : result vector :=
  let* x := feature_vector st d in
  mat_vec (R st) x.

(** Line 84: the observation that is written into [B] *)
Definition observe (st : state) (d : event) : result vector :=
  let* y := project st d in
  Ok (normalize y).

(** Lines 87-88: left-most all-zero column of [B], else the last column *)
Definition free_slot (b : matrix) : nat :=
  match zero_cols b with
  | j :: _ => j
  | [] => ell - 1
  end.

(** [x ** 2] on a NumPy float scalar: the power function of the C library.
    It is no multiplication and need not return what the multiplication
    returns. *)
Variable pow2 : float -> float.

(** Lines 99-100: [delta = s[-1] ** 2; s = np.sqrt(s ** 2 - delta)]. The
    square of the scalar [s[-1]] is [pow2], the square of the array [s] is
    [np.square], a multiplication. [np.sqrt] gives NaN on a negative number
    and the code has no guard against one: the outcome is [InvalidValue]. *)
Definition shrink (s : vector) : result vector :=
  match last s with
  | None => Raise IndexError
  | Some s_min =>
      let delta := pow2 s_min in
      let radicands := map (fun x => x * x - delta)%R s in
      if decide (Forall (fun r => 0 <= r)%R radicands)
      then Ok (map sqrt radicands)
      else Raise InvalidValue
  end.

(** Lines 94-102: basis and sketch from the factors of the SVD *)
Definition truncate_basis (u : matrix) : matrix := map (take ell) u.

Definition rebuild (u : matrix) (s : vector) : result matrix :=
  let* s := shrink (take ell s) in
  mat_mul u (diag s).

(** [_Base__update]. On [InvalidValue] the model is returned as it is at
    line 100, with the basis stored; the code goes on to line 102 and stores
    a sketch whose last columns are NaN. *)
Definition update (st : state) (d : event) : state * result unit :=
  match observe st d with
  | Raise e => (st, Raise e)
  | Ok y =>
      match set_column (B st) (free_slot (B st)) y with
      | Raise e => (st, Raise e)
      | Ok b =>
          let st := set_B st b in
          match svd b with
          | None => (st, Raise LinAlgError)
          | Some (u, s, _) =>
              let st := set_U st (truncate_basis u) in
              match rebuild (truncate_basis u) s with
              | Raise e => (st, Raise e)
              | Ok b => (set_B st b, Ok ())
              end
          end
      end
  end.

(** positions addressed by a list of indices into an axis of length [n] *)
Fixpoint take_indices (n : nat) (js : list Z) : result (list nat) :=
  match js with
  | [] => Ok []
  | j :: js' =>
      match norm_index n j with
      | None => Raise IndexError
      | Some c => let* cs := take_indices n js' in Ok (c :: cs)
      end
  end.

(** [M[:, js]] *)
Definition select_columns (M : matrix) (js : list Z) : result matrix :=
  let* cs := take_indices (ncols M) js in
  Ok (map (fun r => map (fun c => nth c r 0%R) cs) M).

(** Lines 107-119 of [_Base__recommend]: the stacked candidate matrix *)
Definition candidates (st : state) (d : event) (target_i_indices : list Z)
  : result matrix :=
  let* i_sel := select_columns (store_rows (i_mat st)) target_i_indices in
  let n_target := length target_i_indices in
  let* ctx_u := getitem (user d) in
  let* o := getitem (others d) in
  let u := zeros (n_user st) ++ ctx_u ++ o in
  let* u_idx := getitem (u_index d) in
  let* u := setitem u u_idx 1%R in
  let u_mat := map (fun x => replicate n_target x) u in
  Ok (u_mat ++ i_sel).

(** [preprocessing.normalize(Y, norm='l2', axis=0)]: the input check of
    scikit-learn refuses an array without columns. *)
Definition normalize_columns (Y : matrix) : result matrix :=
  if decide (ncols Y = 0) then Raise ValueError
  else Ok (transpose (map normalize (columns Y))).

(** [self.U]: the attribute is missing until [update] has set it *)
Definition basis (st : state) : result matrix :=
  match U st with
  | Some u => Ok u
  | None => Raise AttributeError
  end.

(** Line 123: [np.identity(k) - np.dot(U, U.T)]; [U] has [k] rows *)
Definition residual_projector (u : matrix) : result matrix :=
  let* uut := mat_mul u (transpose u) in
  if decide (nrows uut = k) then Ok (mat_sub (identity k) uut)
  else Raise ValueError.

(** [_Base__recommend] *)
Definition recommend (st : state) (d : event) (target_i_indices : list Z) (at_ : Z)
  : result recos :=
  let* Y := candidates st d target_i_indices in
  let* Y := mat_mul (R st) Y in
  let* Y := normalize_columns Y in
  let* u := basis st in
  let* X := residual_projector u in
  let* A := mat_mul X Y in
  let scores := map norm (columns A) in
  Ok (scores2recos scores target_i_indices at_).

(** Lines 107-126 of [_Base__recommend]: the scores that are handed to
    [scores2recos] *)
Definition scores (st : state) (d : event) (target_i_indices : list Z)
  : result vector :=
  let* Y := candidates st d target_i_indices in
  let* Y := mat_mul (R st) Y in
  let* Y := normalize_columns Y in
  let* u := basis st in
  let* X := residual_projector u in
  let* A := mat_mul X Y in
  Ok (map norm (columns A)).

(** ** Runs of the model *)

(** The driver registers the events of a stream one after the other; an
    exception ends the run. *)
Fixpoint register_all (st : state) (ds : list event) : state * result unit :=
  match ds with
  | [] => (st, Ok ())
  | d :: ds' =>
      match check st d with
      | (st', Ok _) => register_all st' ds'
      | (st', Raise e) => (st', Raise e)
      end
  end.

(** States a model object can be in: constructed, then any calls of its
    methods ([recommend] changes nothing), completed or not. *)
Inductive reachable : state -> Prop :=
  | reachable_init c g : reachable (init c g)
  | reachable_clear st : reachable st -> reachable (clear st)
  | reachable_check st d : reachable st -> reachable (fst (check st d))
  | reachable_update st d : reachable st -> reachable (fst (update st d)).

(** States of a model object on which [update] was never called. *)
Inductive never_updated : state -> Prop :=
  | never_updated_init c g : never_updated (init c g)
  | never_updated_clear st : never_updated st -> never_updated (clear st)
  | never_updated_check st d :
      never_updated st -> never_updated (fst (check st d)).

End Model.

(** ** Notions of the specification *)

(** An event has every required field: both keys and the three context
    vectors, each of the declared size. *)
Definition has_size (n : nat) (field : option vector) : Prop :=
  exists v, field = Some v /\ length v = n.

Definition well_formed (c : contexts_t) (d : event) : Prop :=
  is_Some (u_index d) /\ is_Some (i_index d) /\
  has_size (ctx_user c) (user d) /\
  has_size (ctx_others c) (others d) /\
  has_size (ctx_item c) (item d).

(** one-hot identity block of [n] slots with slot [j] set *)
Definition one_hot (n j : nat) : vector := <[j := 1%R]> (zeros n).

(** The layout in the order the specification gives:
    user identity, user context, other context, item context, item identity. *)
Definition spec_layout (n_user n_item u i : nat) (cu co ci : vector) : vector :=
  one_hot n_user u ++ cu ++ co ++ ci ++ one_hot n_item i.

(** The layout in the order of the code:
    user identity, user context, other context, item identity, item context. *)
Definition code_layout (n_user n_item u i : nat) (cu co ci : vector) : vector :=
  one_hot n_user u ++ cu ++ co ++ one_hot n_item i ++ ci.

(** [M] is an [r] by [c] array *)
Definition has_shape (r c : nat) (M : matrix) : Prop :=
  nrows M = r /\ Forall (fun row => length row = c) M.

(** number of columns of [M] that are not exactly zero *)
Definition nonzero_cols (M : matrix) : list nat :=
  filter (fun j => ~ Forall (fun x => x = 0%R) (column M j)) (seq 0 (ncols M)).

(** ** Invariants *)

(** the item store has no more columns than items were allocated *)
Definition store_bounded (st : state) : Prop :=
  ncols (store_rows (i_mat st)) <= n_item st.

(** [R] is [k] by [p], [p] is the initial width plus one per registered
    user and item, and the counters count the registries *)
Definition width_ok (c : contexts_t) (st : state) : Prop :=
  has_shape k (p st) (R st) /\
  p st = ctx_user c + ctx_others c + ctx_item c + n_user st + n_item st /\
  n_user st = size (users st) /\
  n_item st = size (items st).

(** the sketch [B] is [k] by [ell] *)
Definition sketch_shape (st : state) : Prop :=
  nrows (B st) = k /\ ncols (B st) = ell.

(** What [numpy.linalg.svd(M, full_matrices=False)] promises about the
    shapes of the factors of a [k] by [ell] array: [U] has [k] rows and
    there are [ell] singular values. *)
Definition svd_shapes (svd : matrix -> option (matrix * vector * matrix)) : Prop :=
  forall (M u : matrix) (s : vector) (v : matrix),
    nrows M = k -> ncols M = ell -> svd M = Some (u, s, v) ->
    nrows u = k /\ length s = ell.

(** ** Sums over an index range, for the algebra of the sketch *)

(** [f 0 + ... + f (n - 1)] *)
Fixpoint bigsum (n : nat) (f : nat -> float) : float :=
  match n with
  | 0 => 0%R
  | S n' => (bigsum n' f + f n')%R
  end.

(** sum of the squares of a 1-D array *)
Definition sumsq (v : vector) : float := sum (map (fun x => x * x)%R v).

(** entry [(i, j)] of a 2-D array *)
Definition entry (M : matrix) (i j : nat) : float := nth j (nth i M []) 0%R.

(** The columns of [u] on the one hand, the rows of [v] on the other, are
    orthonormal. *)
Definition unit_columns (n : nat) (u : matrix) : Prop :=
  forall j, j < n -> dot (column u j) (column u j) = 1%R.

Definition orthonormal_rows (n : nat) (v : matrix) : Prop :=
  forall i j, i < n -> j < n ->
    dot (nth i v []) (nth j v []) = if decide (i = j) then 1%R else 0%R.

(** What [numpy.linalg.svd(M, full_matrices=False)] returns for an array
    [M] that is at least as high as wide: [M = u diag(s) v] with [u] of the
    shape of [M] and of orthonormal columns, [v] square and orthogonal, the
    singular values non-negative and in descending order. *)
Record is_svd (M u : matrix) (s : vector) (v : matrix) : Prop := mk_is_svd {
  svd_shape_M : has_shape (nrows M) (length s) M;
  svd_shape_u : has_shape (nrows M) (length s) u;
  svd_shape_v : has_shape (length s) (length s) v;
  svd_columns_u : unit_columns (length s) u;
  svd_rows_v : orthonormal_rows (length s) v;
  svd_descending :
    forall i j, i <= j -> j < length s -> (0 <= nth j s 0 <= nth i s 0)%R;
  svd_product :
    exists us, mat_mul u (diag s) = Ok us /\ mat_mul us v = Ok M;
}.

(** the columns of [u] are orthonormal, as those of the left factor of an
    SVD are *)
Definition orthonormal_columns (n : nat) (u : matrix) : Prop :=
  forall a b, a < n -> b < n ->
    dot (column u a) (column u b) = if decide (a = b) then 1%R else 0%R.

(** The counters count the registries; [R] is [k] rows high and its rows
    have one length, which is at most [p]: a registration that raised has
    counted a column that was never added. *)
Definition registry_ok (st : state) : Prop :=
  n_user st = size (users st) /\
  n_item st = size (items st) /\
  nrows (R st) = k /\
  exists w, w <= p st /\ Forall (fun r => length r = w) (R st).

(** every row of the sketch [B] has [ell] entries, and the basis [U], once
    it is set, is [k] rows high *)
Definition sketch_ok (st : state) : Prop :=
  has_shape k ell (B st) /\ forall u, U st = Some u -> nrows u = k.

(** ** The experiment runner, [src/experiment.py] *)

Module Runner.

(** position of a slice bound [i] in a sequence of length [n]: a negative
    bound counts from the end, and bounds are clipped to the sequence *)
Definition slice_bound (n : nat) (i : Z) : nat :=
  if bool_decide (i < 0)%Z then Z.to_nat (Z.max 0 (Z.of_nat n + i))
  else Nat.min n (Z.to_nat i).

(** [l[a:b]], [l[:b]] and [l[a:]] *)
Definition slice {A : Type} (l : list A) (a b : Z) : list A :=
  drop (slice_bound (length l) a) (take (slice_bound (length l) b) l).

Definition slice_to {A : Type} (l : list A) (b : Z) : list A :=
  take (slice_bound (length l) b) l.

Definition slice_from {A : Type} (l : list A) (a : Z) : list A :=
  drop (slice_bound (length l) a) l.

Section Run.

(** The samples come from the converter, the models from the base class;
    neither is among the sources. [fit] changes the model, [evaluate]
    changes it and returns the result. *)
Variable sample : Type.
Variable model : Type.
Variable res : Type.
Variable fit : model -> list sample -> list sample -> Z -> model.
Variable evaluate : model -> list sample -> Z -> model * res.

(** [self.data] *)
Record data_t : Type := mkData {
  samples : list sample;
  n_batch_train : Z;
  n_batch_test : Z;
}.

(** Lines 154-168: the three parts of the stream that [__run] hands to
    [fit] (batch training, batch test) and to [evaluate] *)
Definition run_parts (data : data_t)
  : list sample * list sample * list sample :=
  let batch_tail := (n_batch_train data + n_batch_test data)%Z in
  (slice_to (samples data) (n_batch_train data),
   slice (samples data) (n_batch_train data) batch_tail,
   slice_from (samples data) batch_tail).

(** [Runner.__run] *)
Definition run (callback : unit -> model) (data : data_t)
    (window_size n_epoch : Z) : model * res :=
  let '(train, test, rest) := run_parts data in
  let m := callback () in
  let m := fit m train test n_epoch in
  evaluate m rest window_size.

End Run.

Arguments mkData {sample} _ _ _.
Arguments samples {sample} _.
Arguments n_batch_train {sample} _.
Arguments n_batch_test {sample} _.
Arguments run_parts {sample} _.

End Runner.

(** ** A small run: one item-context dimension *)

(** a stream of draws: a one, then zeros *)
Definition rnd_ex : nat -> float :=
  fun n => if (n =? 0)%nat then 1%R else 0%R.

Definition c_ex : contexts_t := mkContexts 0 0 1.

Definition d_ex : event :=
  mkEvent (Some 0%Z) (Some 0%Z) (Some []) (Some []) (Some [5%R]).

Definition d_ex' : event :=
  mkEvent (Some 1%Z) (Some 1%Z) (Some []) (Some []) (Some [7%R]).

(** a second user of the first item *)
Definition d_ex2 : event :=
  mkEvent (Some 1%Z) (Some 0%Z) (Some []) (Some []) (Some [5%R]).

(** the model when the user of the first event is registered and its item
    is not yet *)
Definition st_user : state := register_user rnd_ex (init rnd_ex c_ex 0) 0.

(** the model after the first event was registered, and as the registration
    of the second item leaves it *)
Definition st_ex : state := fst (check rnd_ex (init rnd_ex c_ex 0) d_ex).
Definition st_ex' : state := fst (check rnd_ex st_ex d_ex').

(** the model after the first event and the second user were registered *)
Definition st_ex2 : state :=
  fst (register_all rnd_ex (init rnd_ex c_ex 0) [d_ex; d_ex2]).

(** keys that are no positions: user 10 and item 20, the first of each *)
Definition d_far : event :=
  mkEvent (Some 10%Z) (Some 20%Z) (Some []) (Some []) (Some [5%R]).

Definition st_far : state := fst (check rnd_ex (init rnd_ex c_ex 0) d_far).

(** ** A run with two item-context dimensions, two items *)

Definition c_two : contexts_t := mkContexts 0 0 2.

Definition d_two : event :=
  mkEvent (Some 0%Z) (Some 0%Z) (Some []) (Some []) (Some [5%R; 6%R]).

Definition d_two' : event :=
  mkEvent (Some 1%Z) (Some 1%Z) (Some []) (Some []) (Some [7%R; 8%R]).

(** the model after the first of the two events was registered, when the
    user of the second is registered, and after the second was registered *)
Definition st_two : state := fst (check rnd_ex (init rnd_ex c_two 0) d_two).
Definition st_two_user : state := register_user rnd_ex st_two 1.
Definition st_two' : state := fst (check rnd_ex st_two d_two').

(** events that lack a key *)
Definition d_no_user : event :=
  mkEvent None (Some 0%Z) (Some []) (Some []) (Some [5%R]).

Definition d_no_item : event :=
  mkEvent (Some 0%Z) None (Some []) (Some []) (Some [5%R]).

(** Modelled from the spec: [scores2recos] of the base class, which is not
    among the sources. Section 4.3, step 6: the candidates are ranked by
    score, ties keep their original order, and the top [at] item identities
    are returned with their scores. *)
Fixpoint rank_insert (c : Z * float) (l : list (Z * float)) : list (Z * float) :=
  match l with
  | [] => [c]
  | c' :: l' =>
      if decide (snd c' <= snd c)%R then c :: l
      else c' :: rank_insert c l'
  end.

Definition scores2recos_spec (scores : vector) (targets : list Z) (at_ : Z)
  : list (Z * float) :=
  take (Z.to_nat at_) (foldr rank_insert [] (zip targets scores)).

(** ** The first update of the small run *)

(** the projection of the first event: [(5, 0, ..., 0)] *)
Definition v_ex : vector := map (fun r => dot r [1; 1; 5]%R) (R st_ex).

(** its observation: the first unit vector *)
Definition y_ex : vector := normalize v_ex.

(** the unit vector [j] of dimension [k] *)
Definition unit_vector (j : nat) : vector := <[j := 1%R]> (zeros k).

(** The sketch holding [y_ex] in its first column has the singular values
    [1, 0, 0, 0, 0, 0]; its left singular vectors are the first [ell] unit
    vectors and [V] is the identity. *)
Definition u_ex : matrix := diag (replicate ell 1%R) ++ zeros2 (k - ell) ell.
Definition s_ex : vector := [1; 0; 0; 0; 0; 0]%R.
Definition v_id : matrix := identity ell.

Definition svd_ex : matrix -> option (matrix * vector * matrix) :=
  fun _ => Some (u_ex, s_ex, v_id).

(** a scalar power that returns what the multiplication returns, one that
    returns more by one part in [10 ^ 16], and one that returns less by as
    much *)
Definition pow_ex : float -> float := fun x => (x * x)%R.
Definition pow_up : float -> float :=
  fun x => (x * x + x * x / 10000000000000000)%R.
Definition pow_down : float -> float :=
  fun x => (x * x - x * x / 10000000000000000)%R.

(** the model after the first update *)
Definition st_up : state := fst (update svd_ex pow_ex st_ex d_ex).

(** ** An update of a full sketch *)

(** A sketch whose first five columns are twice the unit vectors 1 to 5, the
    last column being free. *)
Definition B_w : matrix :=
  zeros ell :: map (fun r => r ++ [0%R]) (diag (replicate 5 2%R))
            ++ zeros2 (k - ell) ell.

Definition st_w : state := set_B st_ex B_w.

(** the sketch once [y_ex] is written into the free column *)
Definition M_w : matrix := zip_with (fun r x => <[5 := x]> r) B_w y_ex.

(** Its singular values are [2, 2, 2, 2, 2, 1]; the left singular vectors
    are the unit vectors 1 to 5, then the unit vector 0. *)
Definition u_w : matrix :=
  [0; 0; 0; 0; 0; 1]%R :: map (fun r => r ++ [0%R]) (diag (replicate 5 1%R))
                       ++ zeros2 (k - ell) ell.
Definition s_w : vector := [2; 2; 2; 2; 2; 1]%R.

Definition svd_w : matrix -> option (matrix * vector * matrix) :=
  fun _ => Some (u_w, s_w, v_id).

(** ** An event whose projection vanishes *)

(** draws: ones for the context column of [R], twos for the column of the
    user, threes for the column of the item *)
Definition rnd_c : nat -> float :=
  fun n => if (n <? 40)%nat then 1%R else if (n <? 80)%nat then 2%R else 3%R.

(** an item whose context is [-5] *)
Definition d_c : event :=
  mkEvent (Some 0%Z) (Some 0%Z) (Some []) (Some []) (Some [(-5)%R]).

Definition st_c : state := fst (check rnd_c (init rnd_c c_ex 0) d_c).

Definition v_c : vector := replicate k (2 * 1 + (3 * 1 + (1 * -5 + 0)))%R.

(** ** Further events of the small run *)

(** a new item without its context *)
Definition d_no_ctx : event :=
  mkEvent (Some 0%Z) (Some 5%Z) (Some []) (Some []) None.

(** the contexts of user and item are of each other's size *)
Definition d_swapped : event :=
  mkEvent (Some 0%Z) (Some 0%Z) (Some [5%R]) (Some []) (Some []).

(** the index of a user that was never registered, with a user context *)
Definition d_ghost : event :=
  mkEvent (Some 1%Z) (Some 0%Z) (Some [9%R]) (Some []) (Some [5%R]).

(** an SVD that does not converge *)
Definition svd_fail : matrix -> option (matrix * vector * matrix) :=
  fun _ => None.

(** the empty sketch with [y_ex] in its first column *)
Definition b_ex : matrix :=
  zip_with (fun r v => <[0 := v]> r) (zeros2 k ell) y_ex.

(** the model cleared after the first event, the event registered again *)
Definition st_cleared : state :=
  fst (register_all rnd_ex (clear rnd_ex st_ex) [d_ex]).

(** a stream of five samples, two for batch training, two for batch test *)
Definition data_ex : Runner.data_t Z :=
  Runner.mkData [1; 2; 3; 4; 5]%Z 2 2.

(** * Properties *)

(** The arrays of the model are [k] rows high: they are handled through
    their lemmas, not unfolded by simplification. *)
Arguments frob2 : simpl never.
Arguments k : simpl never.
Arguments ell : simpl never.
Arguments normal : simpl never.
Arguments normal_col : simpl never.
Arguments zeros2 : simpl never.
Arguments insert_column : simpl never.

(** the paths through [register_item]: the first column of the store; a
    column stacked beside the store; the store stacked, the column refused;
    the store refused; no item context *)
Lemma vstack_rows (s : item_store) (a z c m : matrix) :
  vstack s a z c = Ok m -> m = a ++ z ++ c.
Proof.
  unfold vstack. destruct s; [case_decide; [done|]|]; by intros [= <-].
Qed.

Ltac split_register_item :=
  unfold register_item;
  destruct (item _) as [?ctx|];
    [case_decide;
       [|destruct (vstack _ _ _ _) as [?m|?e] eqn:?Hstack;
           [apply vstack_rows in Hstack as ->; case_decide|]]|].


Section Registration.

Variable rnd : nat -> float.

(** ** Registration of known entities *)

(** C8. Registration is idempotent: on an event whose user key and item key
    are both registered, [check] completes and leaves the whole model state
    (registries, counters, [p], [R], [i_mat], [B], basis, random stream) as
    it was, in every state. *)
Theorem check_registered_unchanged (st : state) (d : event) (u i : Z) :
  u_index d = Some u ->
  i_index d = Some i ->
  is_Some (users st !! u) ->
  is_Some (items st !! i) ->
  check rnd st d = (st, Ok ()).
Proof.
  intros Hu Hi Hku Hki. unfold check.
  rewrite Hu, Hi.
  rewrite (decide_True (P := is_Some (users st !! u))) by assumption.
  rewrite (decide_True (P := is_Some (items st !! i))) by assumption.
  reflexivity.
Qed.

(** ** Events without keys *)


(** ** New items *)

Lemma check_new_item (st : state) (d : event) (u i : Z) :
  u_index d = Some u -> is_Some (users st !! u) ->
  i_index d = Some i -> items st !! i = None ->
  check rnd st d = register_item rnd st i d.
Proof.
  intros Hu Hku Hi Hki. unfold check. rewrite Hu, Hi.
  rewrite (decide_True (P := is_Some (users st !! u))) by done.
  rewrite decide_False; [done|]. rewrite Hki. by intros [? ?].
Qed.

Lemma count_nonzero_zeros (v : vector) :
  Forall (fun x => x = 0%R) v -> count_nonzero v = 0.
Proof.
  induction 1 as [|x v -> _ IH]; [done|]. cbn.
  by rewrite decide_True.
Qed.

(** When nothing is stored in [i_mat], be it that no item was registered
    or that every entry is zero, the column of the new item replaces the
    whole store. *)
Lemma register_item_reset (st : state) (i : Z) (d : event) (ctx : vector) :
  item d = Some ctx ->
  store_size (i_mat st) = 0 ->
  i_mat (fst (register_item rnd st i d)) =
    Dense (map (fun x => [x]) (zeros (n_item st + 1) ++ ctx)).
Proof.
  intros Hctx Hsize. unfold register_item. rewrite Hctx.
  change (i_mat (allocate_item st i)) with (i_mat st).
  rewrite decide_True by done. reflexivity.
Qed.

(** ** The basis before the first update *)

Lemma U_clear (st : state) : U (clear rnd st) = U st.
Proof. reflexivity. Qed.

Lemma U_check (st : state) (d : event) : U (fst (check rnd st d)) = U st.
Proof.
  unfold check.
  destruct (u_index d) as [u|]; [|reflexivity].
  set (st1 := if decide (is_Some (users st !! u)) then st else register_user rnd st u).
  assert (H1 : U st1 = U st) by (subst st1; case_decide; reflexivity).
  destruct (i_index d) as [i|]; [|exact H1].
  case_decide; [exact H1|].
  split_register_item; exact H1.
Qed.

Lemma never_updated_no_basis (st : state) : never_updated rnd st -> U st = None.
Proof.
  induction 1 as [c g | st _ IH | st d _ IH].
  - reflexivity.
  - rewrite U_clear. exact IH.
  - rewrite U_check. exact IH.
Qed.

End Registration.

Section Recommendation.

Variable rnd : nat -> float.
Variable svd : matrix -> option (matrix * vector * matrix).
Variable pow2 : float -> float.
Variable recos : Type.
Variable scores2recos : vector -> list Z -> Z -> recos.

(** C10. On a model on which [update] was never called (constructed, then
    cleared or fed with registrations only) every call of [recommend]
    raises: the basis [U] does not exist yet. *)
Theorem recommend_before_update_raises (st : state) :
  never_updated rnd st ->
  forall (d : event) (target_i_indices : list Z) (at_ : Z),
    exists e, recommend recos scores2recos st d target_i_indices at_ = Raise e.
Proof.
  intros Hst d ts at_.
  apply never_updated_no_basis in Hst.
  unfold recommend.
  destruct (candidates st d ts) as [Y|e]; [cbn|by exists e].
  destruct (mat_mul (R st) Y) as [Y1|e]; [cbn|by exists e].
  destruct (normalize_columns Y1) as [Y2|e]; [cbn|by exists e].
  unfold basis. rewrite Hst. cbn. by exists AttributeError.
Qed.

(** ** The item store never has more columns than items were allocated *)

Lemma ncols_insert_row (m : matrix) (n : nat) :
  ncols (take n m ++ zeros2 1 (ncols m) ++ drop n m) = ncols m.
Proof.
  unfold zeros2, zeros.
  destruct m as [|r m]; [by destruct n|].
  destruct n; cbn; [|done].
  by rewrite length_replicate.
Qed.

Lemma ncols_append_column (m : matrix) (l : vector) :
  ncols (zip_with app m (map (fun x => [x]) l)) <= ncols m + 1.
Proof.
  destruct m as [|r m], l as [|x l]; cbn; try lia.
  rewrite length_app. cbn. lia.
Qed.

Lemma ncols_single_column (l : vector) :
  ncols (map (fun x => [x]) l) <= 1.
Proof. destruct l; cbn; lia. Qed.

Lemma store_bounded_register_item (st : state) (i : Z) (d : event) :
  store_bounded st -> store_bounded (fst (register_item rnd st i d)).
Proof.
  unfold store_bounded. intros H.
  split_register_item; cbn.
  - etrans; [apply ncols_single_column|lia].
  - etrans; [apply ncols_append_column|].
    rewrite ncols_insert_row. lia.
  - rewrite ncols_insert_row. lia.
  - lia.
  - lia.
Qed.

Lemma store_bounded_check (st : state) (d : event) :
  store_bounded st -> store_bounded (fst (check rnd st d)).
Proof.
  intros H. unfold check.
  destruct (u_index d) as [u|]; [|exact H].
  set (st1 := if decide (is_Some (users st !! u)) then st else register_user rnd st u).
  assert (H1 : store_bounded st1) by (subst st1; case_decide; exact H).
  destruct (i_index d) as [i|]; [|exact H1].
  case_decide; [exact H1|].
  by apply store_bounded_register_item.
Qed.

Lemma update_keeps_items (st : state) (d : event) :
  i_mat (fst (update svd pow2 st d)) = i_mat st /\
  n_item (fst (update svd pow2 st d)) = n_item st.
Proof.
  unfold update.
  destruct (observe st d) as [y|]; [|done].
  destruct (set_column _ _ _) as [b|]; [|done].
  destruct (svd b) as [[[u s] v]|]; [|done].
  destruct (rebuild pow2 _ _); done.
Qed.

Lemma reachable_store_bounded (st : state) :
  reachable rnd svd pow2 st -> store_bounded st.
Proof.
  induction 1 as [c g | st _ IH | st d _ IH | st d _ IH].
  - unfold store_bounded. cbn. lia.
  - unfold store_bounded. cbn. lia.
  - by apply store_bounded_check.
  - unfold store_bounded.
    destruct (update_keeps_items st d) as [-> ->]. exact IH.
Qed.

(** ** Targets out of range *)

Lemma norm_index_beyond (n : nat) (t : Z) :
  (Z.of_nat n <= t)%Z -> norm_index n t = None.
Proof.
  intros H. unfold norm_index.
  rewrite bool_decide_eq_false_2 by lia.
  rewrite bool_decide_eq_false_2 by lia.
  reflexivity.
Qed.

Lemma take_indices_beyond (n : nat) (js : list Z) (t : Z) :
  t ∈ js -> norm_index n t = None -> take_indices n js = Raise IndexError.
Proof.
  intros Hin Ht.
  induction js as [|j js IH]; [by apply elem_of_nil in Hin|].
  cbn. destruct (norm_index n j) as [c|] eqn:Hj; [|reflexivity].
  apply elem_of_cons in Hin as [-> | Hin]; [congruence|].
  rewrite (IH Hin). reflexivity.
Qed.

(** C1, as amended. A target slot that was never allocated is not filtered
    out: a request that names a slot from [n_item] on raises [IndexError],
    in every reachable state and whatever the other targets are. *)
Theorem recommend_unknown_target_raises
    (st : state) (d : event) (target_i_indices : list Z) (at_ t : Z) :
  reachable rnd svd pow2 st ->
  t ∈ target_i_indices ->
  (Z.of_nat (n_item st) <= t)%Z ->
  recommend recos scores2recos st d target_i_indices at_ = Raise IndexError.
Proof.
  intros Hst Hin Ht.
  apply reachable_store_bounded in Hst. unfold store_bounded in Hst.
  unfold recommend, candidates, select_columns.
  rewrite (take_indices_beyond _ _ t Hin); [reflexivity|].
  apply norm_index_beyond. lia.
Qed.

End Recommendation.

Section Width.

Variable rnd : nat -> float.

(** ** The width of the projection matrix *)

Lemma has_shape_normal (g r c : nat) : has_shape r c (normal rnd g r c).
Proof.
  split.
  - unfold nrows, normal. by rewrite length_map, length_seq.
  - unfold normal. apply Forall_map, Forall_forall. intros i _.
    cbn. by rewrite length_map, length_seq.
Qed.

Lemma length_normal_col (g : nat) : length (normal_col rnd g) = k.
Proof. unfold normal_col. by rewrite length_map, length_seq. Qed.

Lemma has_shape_insert_column (r c offset : nat) (M : matrix) (col : vector) :
  has_shape r c M -> length col = r ->
  has_shape r (c + 1) (insert_column M offset col).
Proof.
  intros [Hr Hc] Hcol. unfold has_shape, nrows, insert_column in *. split.
  - rewrite length_zip_with. lia.
  - clear Hr Hcol. revert col.
    induction Hc as [|row M Hrow _ IH]; intros [|x col]; cbn;
      constructor; [|apply IH].
    rewrite length_app. cbn. rewrite length_take, length_drop. lia.
Qed.

Lemma width_ok_init (c : contexts_t) (g : nat) : width_ok c (init rnd c g).
Proof.
  unfold width_ok. cbn. split; [apply has_shape_normal|].
  rewrite !map_size_empty. lia.
Qed.

Lemma width_ok_register_user (c : contexts_t) (st : state) (u : Z) :
  users st !! u = None ->
  width_ok c st -> width_ok c (register_user rnd st u).
Proof.
  intros Hu (HR & Hp & Hnu & Hni). unfold width_ok. cbn.
  split; [|split; [lia|split; [|done]]].
  - apply has_shape_insert_column; [done|apply length_normal_col].
  - rewrite map_size_insert_None by done. lia.
Qed.

Lemma width_ok_register_item (c : contexts_t) (st st' : state) (i : Z) (d : event) :
  items st !! i = None ->
  width_ok c st ->
  register_item rnd st i d = (st', Ok ()) ->
  width_ok c st'.
Proof.
  intros Hi (HR & Hp & Hnu & Hni) Hreg.
  assert (Hgrow : forall m, width_ok c (grow_R_item rnd (set_i_mat (allocate_item st i) m))).
  { intros m. unfold width_ok. cbn.
    split; [|split; [lia|split; [done|]]].
    - apply has_shape_insert_column; [done|apply length_normal_col].
    - rewrite map_size_insert_None by done. lia. }
  revert Hreg.
  split_register_item; intros Hreg; try done; injection Hreg as <-; apply Hgrow.
Qed.

Lemma width_ok_check (c : contexts_t) (st st' : state) (d : event) :
  width_ok c st -> check rnd st d = (st', Ok ()) -> width_ok c st'.
Proof.
  intros H. unfold check.
  destruct (u_index d) as [u|]; [|done].
  set (st1 := if decide (is_Some (users st !! u)) then st else register_user rnd st u).
  assert (H1 : width_ok c st1).
  { subst st1. case_decide as Hu; [done|].
    apply width_ok_register_user; [|done].
    by apply eq_None_not_Some. }
  destruct (i_index d) as [i|]; [|done].
  case_decide as Hi; [by intros [= <-]|].
  apply width_ok_register_item; [|done].
  by apply eq_None_not_Some.
Qed.

Lemma width_ok_register_all (c : contexts_t) (ds : list event) (st st' : state) :
  width_ok c st -> register_all rnd st ds = (st', Ok ()) -> width_ok c st'.
Proof.
  revert st. induction ds as [|d ds IH]; intros st H; cbn.
  - by intros [= <-].
  - destruct (check rnd st d) as [st1 [[]|e]] eqn:Hd; [|done].
    apply IH. by eapply width_ok_check.
Qed.


End Width.

Section Layout.

(** ** The order of the blocks *)

Lemma norm_index_nat (n j : nat) : j < n -> norm_index n (Z.of_nat j) = Some j.
Proof.
  intros H. unfold norm_index.
  rewrite bool_decide_eq_true_2 by lia.
  by rewrite Nat2Z.id.
Qed.

Lemma setitem_one_hot (n j : nat) (rest : vector) :
  j < n ->
  setitem (zeros n ++ rest) (Z.of_nat j) 1%R = Ok (one_hot n j ++ rest).
Proof.
  intros H. unfold setitem, one_hot, zeros.
  rewrite norm_index_nat by (rewrite length_app, length_replicate; lia).
  cbv beta iota.
  rewrite insert_app_l by (rewrite length_replicate; lia).
  reflexivity.
Qed.

(** C3, as amended. For an event whose user index is a position [u] below
    [n_user] and whose item index is a position [i] below [n_item], and
    which has its three contexts, [update] assembles the blocks in the order
    user identity, user context, other context, item identity, item
    context: the item identity block precedes the item context block.
    [recommend] stacks, for every target, the user blocks in the same order
    above the selected column of [i_mat]. The indices are used as positions
    and the registries are not consulted: of a key that is registered and
    is no such position nothing is said. *)
Theorem feature_vector_layout
    (st : state) (d : event) (u i : nat) (cu co ci : vector) :
  u_index d = Some (Z.of_nat u) ->
  i_index d = Some (Z.of_nat i) ->
  user d = Some cu ->
  others d = Some co ->
  item d = Some ci ->
  u < n_user st ->
  i < n_item st ->
  feature_vector st d = Ok (code_layout (n_user st) (n_item st) u i cu co ci) /\
  forall (target_i_indices : list Z) (i_sel : matrix),
    select_columns (store_rows (i_mat st)) target_i_indices = Ok i_sel ->
    candidates st d target_i_indices =
      Ok (map (fun x => replicate (length target_i_indices) x)
              (one_hot (n_user st) u ++ cu ++ co) ++ i_sel).
Proof.
  intros Hu Hi Hcu Hco Hci Hlu Hli. split.
  - unfold feature_vector, code_layout.
    rewrite Hcu, Hu, Hci, Hi, Hco. cbn.
    rewrite (setitem_one_hot _ _ cu Hlu). cbn.
    rewrite (setitem_one_hot _ _ ci Hli). cbn.
    by rewrite <- (assoc_L (++)).
  - intros ts i_sel Hsel. unfold candidates.
    rewrite Hsel, Hcu, Hco, Hu. cbn.
    rewrite (setitem_one_hot _ _ (cu ++ co) Hlu). reflexivity.
Qed.

Lemma last_single_column (col : vector) :
  Forall2 (fun row x => last row = Some x) (map (fun x => [x]) col) col.
Proof. induction col; cbn; by constructor. Qed.

Lemma last_appended_column (m : matrix) (col : vector) :
  length m = length col ->
  Forall2 (fun row x => last row = Some x)
          (zip_with app m (map (fun x => [x]) col)) col.
Proof.
  revert col. induction m as [|r m IH]; intros col Hlen.
  - destruct col; [constructor|done].
  - destruct col as [|x col]; [done|]. cbn.
    constructor; [by rewrite last_snoc|].
    apply IH. cbn in Hlen. lia.
Qed.

(** The column that a completed registration of a new item appends to
    [i_mat] holds [n_item] zeros, then the context of the item: the identity
    rows come first and none of them is set. *)
Lemma register_item_column
    (rnd : nat -> float) (st st' : state) (i : Z) (d : event) (ctx : vector) :
  item d = Some ctx ->
  register_item rnd st i d = (st', Ok ()) ->
  Forall2 (fun row x => last row = Some x)
          (store_rows (i_mat st')) (zeros (n_item st + 1) ++ ctx).
Proof.
  intros Hctx. unfold register_item. rewrite Hctx.
  case_decide.
  - intros [= <-]. apply last_single_column.
  - destruct (vstack _ _ _ _) as [m|e]; [|done].
    case_decide as Hrows; [|done].
    intros [= <-]. apply last_appended_column.
    unfold nrows in Hrows. by rewrite length_map in Hrows.
Qed.

End Layout.

Section Sketch.

Variable rnd : nat -> float.
Variable svd : matrix -> option (matrix * vector * matrix).
Variable pow2 : float -> float.

(** ** What a completed update did *)

Lemma update_completed (st st' : state) (d : event) :
  update svd pow2 st d = (st', Ok ()) ->
  exists (y : vector) (b : matrix) (u : matrix) (s : vector) (v b' : matrix),
    observe st d = Ok y /\
    set_column (B st) (free_slot (B st)) y = Ok b /\
    svd b = Some (u, s, v) /\
    rebuild pow2 (truncate_basis u) s = Ok b' /\
    st' = set_B (set_U (set_B st b) (truncate_basis u)) b'.
Proof.
  unfold update.
  destruct (observe st d) as [y|]; [|done].
  destruct (set_column _ _ _) as [b|] eqn:Hb; [|done].
  destruct (svd b) as [[[u s] v]|] eqn:Hsvd; [|done].
  destruct (rebuild pow2 _ _) as [b'|] eqn:Hb'; [|done].
  intros [= <-]. by exists y, b, u, s, v, b'.
Qed.

Lemma update_frame (st : state) (d : event) :
  i_mat (fst (update svd pow2 st d)) = i_mat st /\
  R (fst (update svd pow2 st d)) = R st /\
  n_user (fst (update svd pow2 st d)) = n_user st /\
  n_item (fst (update svd pow2 st d)) = n_item st /\
  items (fst (update svd pow2 st d)) = items st.
Proof.
  unfold update.
  destruct (observe st d) as [y|]; [|done].
  destruct (set_column _ _ _) as [b|]; [|done].
  destruct (svd b) as [[[u s] v]|]; [|done].
  destruct (rebuild pow2 _ _); done.
Qed.

Lemma update_basis (st st' : state) (d : event) :
  update svd pow2 st d = (st', Ok ()) ->
  exists b u s v, svd b = Some (u, s, v) /\ U st' = Some (truncate_basis u).
Proof.
  intros H.
  destruct (update_completed _ _ _ H)
    as (y & b & u & s & v & b' & _ & _ & Hs & _ & E).
  exists b, u, s, v. split; [done|]. rewrite E. reflexivity.
Qed.

(** ** Zero columns *)

Lemma isclose_zero : isclose 0 0 = true.
Proof.
  unfold isclose, atol, rtol. apply bool_decide_eq_true_2.
  rewrite Rminus_diag, Rabs_R0. lra.
Qed.

Lemma zero_column_found (M : matrix) (j : nat) :
  j < ncols M ->
  Forall (fun x => x = 0%R) (column M j) ->
  j ∈ zero_cols M.
Proof.
  intros Hj Hz. unfold zero_cols.
  apply list_elem_of_filter. split.
  - apply forallb_forall. intros x Hx.
    rewrite Forall_forall in Hz.
    rewrite (Hz x) by (by apply list_elem_of_In).
    apply isclose_zero.
  - apply elem_of_seq. lia.
Qed.

Lemma free_slot_zero_col (M : matrix) :
  zero_cols M <> [] -> free_slot M ∈ zero_cols M.
Proof.
  unfold free_slot. destruct (zero_cols M) as [|j js]; [done|].
  intros _. apply elem_of_cons. by left.
Qed.

Lemma nonzero_cols_bound (M : matrix) (n : nat) :
  ncols M = S n ->
  Forall (fun x => x = 0%R) (column M n) ->
  length (nonzero_cols M) <= n.
Proof.
  intros Hc Hz. unfold nonzero_cols. rewrite Hc, seq_S, filter_app.
  rewrite length_app. cbn.
  rewrite (decide_False (P := ~ _)) by tauto. cbn.
  pose proof (length_filter
    (fun j => ~ Forall (fun x => x = 0%R) (column M j)) (seq 0 n)) as Hlen.
  rewrite length_seq in Hlen. lia.
Qed.

(** ** The shrunk singular values *)

(** A shrink step that completes took no square root of a negative
    number. *)
Lemma shrink_completed (s s' : vector) :
  shrink pow2 s = Ok s' ->
  exists s_min, last s = Some s_min /\
    Forall (fun x => 0 <= x * x - pow2 s_min)%R s /\
    s' = map (fun x => sqrt (x * x - pow2 s_min)) s.
Proof.
  unfold shrink. destruct (last s) as [s_min|]; [|done].
  case_decide as H; [|done]. intros [= <-].
  exists s_min. split; [done|]. split.
  - by rewrite Forall_map in H.
  - by rewrite map_map.
Qed.

Lemma shrink_completes (s : vector) (s_min : float) :
  last s = Some s_min ->
  Forall (fun x => 0 <= x * x - pow2 s_min)%R s ->
  shrink pow2 s = Ok (map (fun x => sqrt (x * x - pow2 s_min)) s).
Proof.
  intros Hlast H. unfold shrink. rewrite Hlast.
  rewrite decide_True by (by rewrite Forall_map).
  by rewrite map_map.
Qed.

(** One negative radicand makes the shrink step yield NaN. *)
Lemma shrink_invalid (s : vector) (s_min x : float) :
  last s = Some s_min -> x ∈ s -> (x * x - pow2 s_min < 0)%R ->
  shrink pow2 s = Raise InvalidValue.
Proof.
  intros Hlast Hx Hneg. unfold shrink. rewrite Hlast.
  rewrite decide_False; [done|]. intros H.
  rewrite Forall_map, Forall_forall in H.
  specialize (H x Hx). cbn in H. lra.
Qed.

Lemma shrink_length (s s' : vector) :
  shrink pow2 s = Ok s' -> length s' = length s.
Proof.
  intros H. apply shrink_completed in H as (s_min & _ & _ & ->).
  by rewrite length_map.
Qed.

(** The last value is shrunk to zero when the scalar power of the smallest
    singular value is its product with itself. *)
Lemma shrink_last (s s' : vector) (s_min : float) :
  shrink pow2 s = Ok s' -> last s = Some s_min ->
  pow2 s_min = (s_min * s_min)%R ->
  last s' = Some 0%R.
Proof.
  intros H Hlast Hpow.
  apply shrink_completed in H as (s_min' & Hlast' & _ & ->).
  rewrite Hlast in Hlast'. injection Hlast' as <-.
  apply last_Some in Hlast as [l ->].
  rewrite map_app. cbn [map]. rewrite last_snoc.
  by rewrite Hpow, Rminus_diag, sqrt_0.
Qed.

(** ** The columns of a diagonal matrix *)

Lemma nth_zeros (n j : nat) : nth j (zeros n) 0%R = 0%R.
Proof.
  unfold zeros. revert j. induction n; intros [|j]; cbn; auto.
Qed.

Lemma nth_diag_row (n i j : nat) (x : float) :
  nth j (zeros i ++ x :: zeros (n - S i)) 0%R =
  if decide (i = j) then x else 0%R.
Proof.
  assert (Hi : length (zeros i) = i) by apply length_replicate.
  case_decide as Hij.
  - subst j. rewrite <- Hi at 1. apply nth_middle.
  - destruct (decide (j < i)).
    + rewrite app_nth1 by lia. apply nth_zeros.
    + rewrite app_nth2 by lia. rewrite Hi.
      destruct (j - i) as [|m] eqn:Hm; [lia|]. cbn. apply nth_zeros.
Qed.

Lemma column_diag_aux (n j o : nat) (s : vector) :
  map (fun r => nth j r 0%R)
      (imap (fun i x => zeros (o + i) ++ x :: zeros (n - S (o + i))) s) =
  imap (fun i x => if decide (o + i = j) then x else 0%R) s.
Proof.
  revert o. induction s as [|x s IH]; intros o; [done|]. cbn. f_equal.
  - apply nth_diag_row.
  - transitivity
      (map (fun r => nth j r 0%R)
         (imap (fun i y => zeros (S o + i) ++ y :: zeros (n - S (S o + i))) s)).
    { f_equal. apply imap_ext. intros i y _. cbn.
      by rewrite Nat.add_succ_r. }
    rewrite IH. apply imap_ext. intros i y _. cbn.
    by rewrite Nat.add_succ_r.
Qed.

Lemma column_diag (s : vector) (j : nat) :
  column (diag s) j = imap (fun i x => if decide (i = j) then x else 0%R) s.
Proof. apply (column_diag_aux (length s) j 0 s). Qed.

Lemma ncols_diag (s : vector) : ncols (diag s) = length s.
Proof.
  destruct s as [|x s]; [done|]. unfold diag. cbn.
  rewrite length_replicate. lia.
Qed.

Lemma column_diag_last (s : vector) :
  last s = Some 0%R ->
  Forall (fun x => x = 0%R) (column (diag s) (length s - 1)).
Proof.
  intros Hlast. apply last_Some in Hlast as [l ->].
  rewrite column_diag, length_app. cbn.
  apply Forall_forall. intros x Hx.
  apply elem_of_lookup_imap in Hx as (i & y & -> & Hy).
  case_decide as Hi; [|done].
  assert (i = length l) by lia. subst i.
  rewrite list_lookup_middle in Hy by done.
  by injection Hy as <-.
Qed.

Lemma dot_zero_r (r c : vector) :
  Forall (fun x => x = 0%R) c -> dot r c = 0%R.
Proof.
  intros Hc. revert r. unfold dot.
  induction Hc as [|x c -> _ IH]; intros [|y r]; cbn; try done.
  rewrite IH. lra.
Qed.

(** ** The rebuilt sketch *)

Lemma mat_mul_rows (M N b : matrix) :
  mat_mul M N = Ok b ->
  b = map (fun r => map (fun c => dot r c) (columns N)) M.
Proof. unfold mat_mul. case_decide; [|done]. by intros [= <-]. Qed.

Lemma mat_mul_zero_column (M N b : matrix) (j : nat) :
  mat_mul M N = Ok b ->
  Forall (fun x => x = 0%R) (column N j) ->
  Forall (fun x => x = 0%R) (column b j).
Proof.
  intros Hb Hz. apply mat_mul_rows in Hb as ->.
  unfold column at 1. rewrite map_map.
  apply Forall_map, Forall_forall. intros r _. cbn.
  destruct (decide (j < length (columns N))) as [Hj|Hj].
  - rewrite (nth_indep _ _ (dot r []%list)) by (by rewrite length_map).
    rewrite (map_nth (fun c => dot r c)).
    apply dot_zero_r.
    unfold columns in *. rewrite length_map, length_seq in Hj.
    rewrite (nth_indep _ _ (column N 0)) by (by rewrite length_map, length_seq).
    rewrite (map_nth (column N)), seq_nth by done. exact Hz.
  - apply nth_overflow. rewrite length_map. lia.
Qed.

Lemma mat_mul_shape (M N b : matrix) :
  mat_mul M N = Ok b ->
  nrows b = nrows M /\ (M <> [] -> ncols b = ncols N).
Proof.
  intros Hb. apply mat_mul_rows in Hb as ->. split.
  - unfold nrows. by rewrite length_map.
  - destruct M as [|r M]; [done|]. intros _. cbn.
    unfold columns. by rewrite !length_map, length_seq.
Qed.

Lemma rebuild_shape (u b : matrix) (s : vector) :
  rebuild pow2 u s = Ok b ->
  u <> [] ->
  nrows b = nrows u /\ ncols b = Nat.min ell (length s).
Proof.
  unfold rebuild. intros Hb Hu.
  destruct (shrink pow2 (take ell s)) as [s'|] eqn:Hs; [cbn in Hb|done].
  destruct (mat_mul_shape _ _ _ Hb) as [Hr Hc]. split; [done|].
  rewrite (Hc Hu), ncols_diag, (shrink_length _ _ Hs).
  apply length_take.
Qed.

Lemma rebuild_last_column (u b : matrix) (s : vector) (s_min : float) :
  rebuild pow2 u s = Ok b ->
  last (take ell s) = Some s_min ->
  pow2 s_min = (s_min * s_min)%R ->
  Forall (fun x => x = 0%R) (column b (Nat.min ell (length s) - 1)).
Proof.
  unfold rebuild. intros Hb Hlast Hpow.
  destruct (shrink pow2 (take ell s)) as [s'|] eqn:Hs; [cbn in Hb|done].
  apply (mat_mul_zero_column _ _ _ _ Hb).
  rewrite <- (length_take s ell), <- (shrink_length _ _ Hs).
  apply column_diag_last. by eapply shrink_last.
Qed.

(** ** The shape of the sketch *)

Lemma set_column_shape (M b : matrix) (j : nat) (y : vector) :
  set_column M j y = Ok b -> nrows b = nrows M /\ ncols b = ncols M.
Proof.
  unfold set_column, nrows. case_decide; [|done]. case_decide as Hy; [|done].
  intros [= <-]. split.
  - rewrite length_zip_with. lia.
  - destruct M as [|r M], y as [|x y]; try done. cbn.
    apply length_insert.
Qed.

Lemma B_check (st : state) (d : event) : B (fst (check rnd st d)) = B st.
Proof.
  unfold check.
  destruct (u_index d) as [u|]; [|reflexivity].
  set (st1 := if decide (is_Some (users st !! u)) then st else register_user rnd st u).
  assert (H1 : B st1 = B st) by (subst st1; case_decide; reflexivity).
  destruct (i_index d) as [i|]; [|exact H1].
  case_decide; [exact H1|].
  split_register_item; exact H1.
Qed.

Lemma k_positive : k <> 0.
Proof. discriminate. Qed.

Lemma ell_eq : ell = 6.
Proof. reflexivity. Qed.

Lemma sketch_shape_zeros : nrows (zeros2 k ell) = k /\ ncols (zeros2 k ell) = ell.
Proof. split; reflexivity. Qed.

Lemma sketch_shape_update (st : state) (d : event) :
  svd_shapes svd -> sketch_shape st -> sketch_shape (fst (update svd pow2 st d)).
Proof.
  intros Hsvd [Hr Hc]. unfold update.
  destruct (observe st d) as [y|]; [|done].
  destruct (set_column _ _ _) as [b|] eqn:Hb; [|done].
  apply set_column_shape in Hb as [Hbr Hbc].
  rewrite Hr in Hbr. rewrite Hc in Hbc.
  destruct (svd b) as [[[u s] v]|] eqn:Hs; [|done].
  destruct (Hsvd _ _ _ _ Hbr Hbc Hs) as [Hu Hlen].
  destruct (rebuild pow2 _ _) as [b'|] eqn:Hb'; [|done].
  assert (Hne : truncate_basis u <> []).
  { intros E. apply (f_equal length) in E.
    unfold truncate_basis in E. rewrite length_map in E.
    unfold nrows in Hu. rewrite Hu in E. by apply k_positive. }
  destruct (rebuild_shape _ _ _ Hb' Hne) as [Hr' Hc'].
  unfold nrows in *. split; cbn.
  - rewrite Hr'. unfold truncate_basis. by rewrite length_map.
  - rewrite Hc', Hlen. apply Nat.min_id.
Qed.

Lemma reachable_sketch_shape (st : state) :
  svd_shapes svd -> reachable rnd svd pow2 st -> sketch_shape st.
Proof.
  intros Hsvd. induction 1 as [c g | st _ IH | st d _ IH | st d _ IH].
  - apply sketch_shape_zeros.
  - apply sketch_shape_zeros.
  - unfold sketch_shape. by rewrite B_check.
  - by apply sketch_shape_update.
Qed.


End Sketch.

Section Normalization.

(** ** Unit norm of the observation *)

Lemma sum_squares_nonneg (v : vector) : (0 <= sum (map (fun x => x * x) v))%R.
Proof.
  unfold sum. induction v as [|x v IH]; cbn; [lra|].
  pose proof (Rle_0_sqr x) as Hx. unfold Rsqr in Hx. lra.
Qed.

Lemma sum_squares_scaled (v : vector) (n : float) :
  n <> 0%R ->
  sum (map (fun x => x * x) (map (fun x => x / n) v))%R =
  (sum (map (fun x => x * x) v) / (n * n))%R.
Proof.
  intros Hn. unfold sum. induction v as [|x v IH]; cbn.
  - field. done.
  - rewrite IH. field. done.
Qed.

Lemma norm_normalize (v : vector) :
  norm v <> 0%R -> norm (normalize v) = 1%R.
Proof.
  intros Hn. unfold normalize.
  rewrite decide_False by done.
  unfold norm at 1. rewrite sum_squares_scaled by done.
  unfold norm in *.
  rewrite sqrt_sqrt by apply sum_squares_nonneg.
  set (q := sum (map (fun x => (x * x)%R) v)) in *.
  assert (Hq : q <> 0%R) by (intros E; apply Hn; rewrite E; apply sqrt_0).
  replace (q / q)%R with 1%R by (field; done).
  apply sqrt_1.
Qed.

Lemma sum_squares_zero (v : vector) :
  Forall (fun x => x = 0%R) v -> sum (map (fun x => x * x) v)%R = 0%R.
Proof.
  unfold sum. induction 1 as [|x v -> _ IH]; cbn; [done|]. rewrite IH. lra.
Qed.

Lemma norm_zero (v : vector) : Forall (fun x => x = 0%R) v -> norm v = 0%R.
Proof. intros H. unfold norm. rewrite sum_squares_zero by done. apply sqrt_0. Qed.

Lemma normalize_zero (v : vector) :
  Forall (fun x => x = 0%R) v -> Forall (fun x => x = 0%R) (normalize v).
Proof.
  intros H. unfold normalize. apply Forall_map.
  eapply Forall_impl; [exact H|]. intros x ->. cbn.
  unfold Rdiv. apply Rmult_0_l.
Qed.

(** C6, as amended. Whenever the projection [R x] of the event is not the
    zero vector, the observation that [update] writes into [B] is the
    projection divided by its norm and has L2 norm 1. *)
Theorem observation_unit_norm (st : state) (d : event) (v : vector) :
  project st d = Ok v ->
  norm v <> 0%R ->
  observe st d = Ok (normalize v) /\ norm (normalize v) = 1%R.
Proof.
  intros Hv Hn. split.
  - unfold observe. by rewrite Hv.
  - by apply norm_normalize.
Qed.

End Normalization.

Section Algebra.

Local Open Scope R_scope.

(** ** Finite sums *)

Lemma sum_app (a b : vector) : sum (a ++ b) = sum a + sum b.
Proof. unfold sum. induction a as [|x a IH]; cbn; [lra|]. rewrite IH. lra. Qed.

Lemma sum_map_seq (n : nat) (f : nat -> float) :
  sum (map f (seq 0 n)) = bigsum n f.
Proof.
  induction n as [|n IH]; [done|].
  rewrite seq_S, map_app, sum_app, IH. unfold sum. cbn. lra.
Qed.

Lemma bigsum_ext (n : nat) (f g : nat -> float) :
  (forall i, (i < n)%nat -> f i = g i) -> bigsum n f = bigsum n g.
Proof.
  induction n as [|n IH]; intros H; cbn; [done|].
  rewrite IH, H by (intros; auto with lia). done.
Qed.

Lemma bigsum_zero (n : nat) : bigsum n (fun _ => 0) = 0.
Proof. induction n as [|n IH]; cbn; [done|]. rewrite IH. lra. Qed.

Lemma bigsum_plus (n : nat) (f g : nat -> float) :
  bigsum n (fun i => f i + g i) = bigsum n f + bigsum n g.
Proof. induction n as [|n IH]; cbn; [lra|]. rewrite IH. lra. Qed.

Lemma bigsum_scale (n : nat) (c : float) (f : nat -> float) :
  bigsum n (fun i => c * f i) = c * bigsum n f.
Proof. induction n as [|n IH]; cbn; [lra|]. rewrite IH. lra. Qed.

Lemma bigsum_swap (n m : nat) (f : nat -> nat -> float) :
  bigsum n (fun i => bigsum m (fun j => f i j)) =
  bigsum m (fun j => bigsum n (fun i => f i j)).
Proof.
  induction n as [|n IH]; cbn.
  - by rewrite bigsum_zero.
  - by rewrite bigsum_plus, IH.
Qed.

Lemma bigsum_mul (n m : nat) (f g : nat -> float) :
  bigsum n f * bigsum m g =
  bigsum n (fun i => bigsum m (fun j => f i * g j)).
Proof.
  induction n as [|n IH]; cbn; [lra|].
  rewrite <- IH, bigsum_scale. lra.
Qed.

Lemma bigsum_delta_out (n j : nat) (f : nat -> float) :
  (n <= j)%nat ->
  bigsum n (fun i => if decide (i = j) then f i else 0) = 0.
Proof.
  intros H. transitivity (bigsum n (fun _ => 0)); [|apply bigsum_zero].
  apply bigsum_ext. intros i Hi. rewrite decide_False by lia. done.
Qed.

Lemma bigsum_delta (n j : nat) (f : nat -> float) :
  (j < n)%nat ->
  bigsum n (fun i => if decide (i = j) then f i else 0) = f j.
Proof.
  induction n as [|n IH]; intros H; [lia|]. cbn.
  destruct (decide (n = j)) as [->|Hne].
  - rewrite bigsum_delta_out by lia. lra.
  - rewrite IH by lia. lra.
Qed.

Lemma bigsum_le (n : nat) (f g : nat -> float) :
  (forall i, (i < n)%nat -> f i <= g i) -> bigsum n f <= bigsum n g.
Proof.
  induction n as [|n IH]; intros H; cbn; [lra|].
  pose proof (IH (fun i Hi => H i (Nat.lt_lt_succ_r _ _ Hi))).
  pose proof (H n (Nat.lt_succ_diag_r n)). lra.
Qed.

(** ** Arrays through their entries *)

Lemma sum_nth (l : vector) : sum l = bigsum (length l) (fun i => nth i l 0).
Proof.
  induction l as [|x l IH] using rev_ind; [done|].
  rewrite sum_app, length_app, Nat.add_1_r. cbn [bigsum].
  rewrite nth_middle, IH.
  replace (sum [x]) with x by (unfold sum; cbn; lra).
  f_equal. apply bigsum_ext. intros i Hi. symmetry. by apply app_nth1.
Qed.

Lemma sum_map_nth {A : Type} (g : A -> float) (l : list A) (d : A) :
  sum (map g l) = bigsum (length l) (fun i => g (nth i l d)).
Proof.
  rewrite sum_nth, length_map. apply bigsum_ext. intros i Hi.
  rewrite (nth_indep _ _ (g d)) by (by rewrite length_map).
  apply map_nth.
Qed.

Lemma nth_zip_with (a b : vector) (i : nat) :
  (i < length a)%nat -> (i < length b)%nat ->
  nth i (zip_with Rmult a b) 0 = nth i a 0 * nth i b 0.
Proof.
  revert b i. induction a as [|x a IH]; intros [|y b] [|i]; cbn;
    try lia; [done|].
  intros. apply IH; lia.
Qed.

Lemma dot_bigsum (a b : vector) (n : nat) :
  length a = n -> length b = n ->
  dot a b = bigsum n (fun i => nth i a 0 * nth i b 0).
Proof.
  intros Ha Hb. unfold dot.
  rewrite sum_nth, length_zip_with, Ha, Hb, Nat.min_id.
  apply bigsum_ext. intros i Hi. apply nth_zip_with; lia.
Qed.

Lemma nth_column (M : matrix) (i j : nat) :
  nth i (column M j) 0 = entry M i j.
Proof.
  unfold column, entry.
  rewrite <- (map_nth (fun r : vector => nth j r 0) M [] i).
  by destruct j.
Qed.

Lemma nth_imap_delta (t : vector) (i j : nat) :
  nth i (imap (fun m x => if decide (m = j) then x else 0) t) 0 =
  if decide (i = j) then nth i t 0 else 0.
Proof.
  rewrite !nth_lookup, list_lookup_imap.
  destruct (t !! i) as [x|]; cbn; [done|]. by case_decide.
Qed.

Lemma shape_nth (r c : nat) (M : matrix) (i : nat) :
  has_shape r c M -> (i < r)%nat -> length (nth i M []) = c.
Proof.
  intros [Hr Hc] Hi. rewrite Forall_forall in Hc. apply Hc.
  apply list_elem_of_In, nth_In. unfold nrows in Hr. lia.
Qed.

Lemma columns_shape (r c : nat) (M : matrix) :
  has_shape r c M -> (r = 0 -> c = 0)%nat ->
  columns M = map (column M) (seq 0 c).
Proof.
  intros [Hr Hc] H0. unfold columns. do 2 f_equal.
  destruct M as [|row M]; cbn in *.
  - symmetry. by apply H0.
  - by inversion Hc.
Qed.

Lemma length_column (M : matrix) (j : nat) : length (column M j) = nrows M.
Proof. unfold column, nrows. by rewrite length_map. Qed.

Lemma sumsq_map_seq (n : nat) (g : nat -> float) :
  sumsq (map g (seq 0 n)) = bigsum n (fun j => g j * g j).
Proof. unfold sumsq. rewrite map_map. apply sum_map_seq. Qed.

Lemma sumsq_nth (w : vector) :
  sumsq w = bigsum (length w) (fun m => nth m w 0 * nth m w 0).
Proof. unfold sumsq. apply (sum_map_nth (fun x => x * x) w 0). Qed.

Lemma frob2_rows (M : matrix) :
  frob2 M = bigsum (nrows M) (fun i => sumsq (nth i M [])).
Proof.
  change (frob2 M) with (sum (map sumsq M)).
  apply (sum_map_nth sumsq M []).
Qed.

(** ** A product with a diagonal matrix *)

Lemma dot_diag_column (row t : vector) (j n : nat) :
  length row = n -> length t = n -> (j < n)%nat ->
  dot row (column (diag t) j) = nth j row 0 * nth j t 0.
Proof.
  intros Hr Ht Hj. rewrite column_diag.
  rewrite (dot_bigsum _ _ n) by (done || by rewrite length_imap).
  rewrite (bigsum_ext _ _
    (fun i => if decide (i = j) then nth i row 0 * nth i t 0 else 0)).
  - by rewrite bigsum_delta.
  - intros i Hi. rewrite nth_imap_delta. case_decide; lra.
Qed.

Lemma sumsq_mul_diag (row t : vector) (n : nat) :
  length row = n -> length t = n ->
  sumsq (map (fun c => dot row c) (columns (diag t))) =
  bigsum n (fun j => (nth j row 0 * nth j t 0) * (nth j row 0 * nth j t 0)).
Proof.
  intros Hr Ht. unfold columns.
  rewrite ncols_diag, Ht, map_map, sumsq_map_seq.
  apply bigsum_ext. intros j Hj. by rewrite (dot_diag_column _ _ _ n).
Qed.

Lemma mat_mul_diag_shape (u b : matrix) (t : vector) (r : nat) :
  nrows u = r -> mat_mul u (diag t) = Ok b -> has_shape r (length t) b.
Proof.
  intros Hr Hb. apply mat_mul_rows in Hb as ->. split.
  - unfold nrows in *. by rewrite length_map.
  - apply Forall_map, Forall_forall. intros row _. cbn.
    unfold columns. by rewrite !length_map, length_seq, ncols_diag.
Qed.

Lemma frob2_mul_diag (u b : matrix) (t : vector) (r n : nat) :
  has_shape r n u -> length t = n -> unit_columns n u ->
  mat_mul u (diag t) = Ok b ->
  frob2 b = bigsum n (fun j => nth j t 0 * nth j t 0).
Proof.
  intros Hu Ht Hcols Hb. apply mat_mul_rows in Hb as ->.
  rewrite frob2_rows. unfold nrows. rewrite length_map.
  destruct Hu as [Hr Hc]. unfold nrows in Hr. rewrite Hr.
  transitivity (bigsum r (fun i => bigsum n (fun j =>
    (entry u i j * nth j t 0) * (entry u i j * nth j t 0)))).
  { apply bigsum_ext. intros i Hi.
    set (F := fun row : vector => map (fun c => dot row c) (columns (diag t))).
    rewrite (nth_indep _ _ (F [])) by (rewrite length_map; lia).
    rewrite (map_nth F). unfold F.
    apply sumsq_mul_diag; [|done].
    by apply (shape_nth r n u i). }
  rewrite bigsum_swap. apply bigsum_ext. intros j Hj.
  transitivity ((nth j t 0 * nth j t 0) *
                bigsum r (fun i => entry u i j * entry u i j)).
  { rewrite <- bigsum_scale. apply bigsum_ext. intros i _. lra. }
  specialize (Hcols j Hj).
  rewrite (dot_bigsum _ _ r) in Hcols by (by rewrite length_column).
  rewrite (bigsum_ext r _ (fun i => entry u i j * entry u i j)) in Hcols
    by (intros i _; by rewrite nth_column).
  rewrite Hcols. lra.
Qed.

(** entries of a product with a diagonal matrix *)
Lemma entry_mul_diag (u b : matrix) (t : vector) (r n i j : nat) :
  has_shape r n u -> length t = n -> mat_mul u (diag t) = Ok b ->
  (i < r)%nat -> (j < n)%nat ->
  entry b i j = entry u i j * nth j t 0.
Proof.
  intros Hu Ht Hb Hi Hj. apply mat_mul_rows in Hb as ->.
  unfold entry at 1.
  set (F := fun row : vector => map (fun c => dot row c) (columns (diag t))).
  rewrite (nth_indep _ _ (F []))
    by (rewrite length_map; destruct Hu as [Hr _]; unfold nrows in Hr; lia).
  rewrite (map_nth F). unfold F, columns.
  rewrite ncols_diag, Ht, map_map.
  set (G := fun x => dot (nth i u []) (column (diag t) x)).
  rewrite (nth_indep _ _ (G 0%nat)) by (by rewrite length_map, length_seq).
  rewrite (map_nth G), seq_nth by done. unfold G. cbn.
  apply (dot_diag_column _ _ _ n); [|done|done].
  by apply (shape_nth r n u).
Qed.

(** ** A product with a matrix of orthonormal rows *)

Lemma sumsq_mul_orthonormal (w : vector) (v : matrix) (n : nat) :
  length w = n -> has_shape n n v -> orthonormal_rows n v ->
  sumsq (map (fun c => dot w c) (columns v)) = sumsq w.
Proof.
  intros Hw Hv Horth.
  rewrite (columns_shape n n v) by done.
  rewrite map_map, sumsq_map_seq, sumsq_nth, Hw.
  transitivity (bigsum n (fun j => bigsum n (fun m => bigsum n (fun m' =>
    (nth m w 0 * entry v m j) * (nth m' w 0 * entry v m' j))))).
  { apply bigsum_ext. intros j Hj.
    rewrite (dot_bigsum _ _ n)
      by (done || (rewrite length_column; apply Hv)).
    rewrite (bigsum_ext n _ (fun m => nth m w 0 * entry v m j))
      by (intros m _; by rewrite nth_column).
    apply bigsum_mul. }
  rewrite bigsum_swap. apply bigsum_ext. intros m Hm.
  rewrite bigsum_swap.
  transitivity (bigsum n (fun m' =>
    if decide (m' = m) then nth m w 0 * nth m' w 0 else 0)).
  { apply bigsum_ext. intros m' Hm'.
    transitivity ((nth m w 0 * nth m' w 0) *
                  bigsum n (fun j => entry v m j * entry v m' j)).
    { rewrite <- bigsum_scale. apply bigsum_ext. intros j _. lra. }
    specialize (Horth m m' Hm Hm').
    rewrite (dot_bigsum _ _ n) in Horth by (by apply (shape_nth n n v)).
    unfold entry. rewrite Horth.
    destruct (decide (m = m')) as [->|Hne].
    - rewrite decide_True by done. lra.
    - rewrite decide_False by done. lra. }
  by rewrite (bigsum_delta n m (fun m' => nth m w 0 * nth m' w 0)).
Qed.

Lemma frob2_mul_orthonormal (w v M : matrix) (r n : nat) :
  has_shape r n w -> has_shape n n v -> orthonormal_rows n v ->
  mat_mul w v = Ok M -> frob2 M = frob2 w.
Proof.
  intros [Hr Hc] Hv Horth HM. apply mat_mul_rows in HM as ->.
  change (sum (map sumsq (map (fun row => map (fun c => dot row c) (columns v)) w))
          = sum (map sumsq w)).
  rewrite map_map. f_equal. apply map_ext_in. intros row Hrow.
  apply (sumsq_mul_orthonormal row v n); [|done|done].
  rewrite Forall_forall in Hc. by apply Hc, list_elem_of_In.
Qed.

End Algebra.

Section Shrink.

Local Open Scope R_scope.

Variable svd : matrix -> option (matrix * vector * matrix).
Variable pow2 : float -> float.

(** ** The shrink step *)

Lemma shrunk_square_le (x delta : float) :
  0 <= delta -> 0 <= x * x - delta ->
  sqrt (x * x - delta) * sqrt (x * x - delta) <= x * x.
Proof. intros Hd Hpos. rewrite sqrt_sqrt by done. lra. Qed.

Lemma ncols_shape (r c : nat) (M : matrix) :
  has_shape r c M -> r <> 0%nat -> ncols M = c.
Proof.
  intros [Hr Hc] Hne. destruct M as [|row M]; [done|]. by inversion Hc.
Qed.

Lemma truncate_basis_id (r : nat) (u : matrix) :
  has_shape r ell u -> truncate_basis u = u.
Proof.
  intros [_ Hc]. unfold truncate_basis.
  rewrite <- (map_id u) at 2. apply map_ext_in. intros row Hrow.
  rewrite Forall_forall in Hc. apply take_ge.
  rewrite (Hc row) by (by apply list_elem_of_In). done.
Qed.

(** Under the order of the singular values no square is below the square of
    the smallest of them. *)
Lemma shrink_no_negative_root
    (M u : matrix) (s : vector) (v : matrix) (s_min : float) :
  is_svd M u s v -> last s = Some s_min ->
  Forall (fun x => 0 <= x * x - s_min * s_min) s.
Proof.
  intros Hsvd Hlast. apply Forall_forall. intros x Hx.
  apply list_elem_of_lookup in Hx as [i Hi].
  pose proof (lookup_lt_Some _ _ _ Hi) as Hlt.
  pose proof (svd_descending _ _ _ _ Hsvd i (length s - 1)%nat
                ltac:(lia) ltac:(lia)) as [Hmin Hle].
  assert (Hx : nth i s 0 = x) by (by apply nth_lookup_Some with (d := 0)).
  assert (Hm : nth (length s - 1) s 0 = s_min).
  { apply last_Some in Hlast as [l ->].
    rewrite length_app, Nat.add_sub. cbn. apply nth_middle. }
  rewrite Hx, Hm in *. nra.
Qed.

(** So no square root of a negative number is taken when the scalar power
    of the smallest singular value is at most its product with itself. *)
Lemma shrink_radicands
    (M u : matrix) (s : vector) (v : matrix) (s_min : float) :
  is_svd M u s v -> last s = Some s_min ->
  pow2 s_min <= s_min * s_min ->
  Forall (fun x => 0 <= x * x - pow2 s_min) s.
Proof.
  intros Hsvd Hlast Hpow.
  eapply Forall_impl; [by eapply shrink_no_negative_root|].
  intros x Hx. cbn in Hx. lra.
Qed.

Lemma rebuild_completes (u : matrix) (s : vector) (r : nat) (s_min : float) :
  has_shape r ell u -> r <> 0%nat -> length s = ell ->
  last s = Some s_min ->
  Forall (fun x => 0 <= x * x - pow2 s_min) s ->
  rebuild pow2 (truncate_basis u) s =
    mat_mul u (diag (map (fun x => sqrt (x * x - pow2 s_min)) s)) /\
  exists b, rebuild pow2 (truncate_basis u) s = Ok b.
Proof.
  intros Hu Hr Hs Hlast Hrad.
  assert (E : rebuild pow2 (truncate_basis u) s =
              mat_mul u (diag (map (fun x => sqrt (x * x - pow2 s_min)) s))).
  { unfold rebuild.
    rewrite (truncate_basis_id r u Hu), take_ge by lia.
    by rewrite (shrink_completes pow2 s s_min Hlast Hrad). }
  split; [exact E|]. rewrite E.
  unfold mat_mul. rewrite decide_True; [by eexists|].
  rewrite (ncols_shape r ell u Hu Hr).
  unfold nrows, diag. by rewrite length_imap, length_map.
Qed.


End Shrink.

Section Columns.

Variable rnd : nat -> float.

(** ** Where the column of a new user or item goes in [R] *)

Lemma nth_insert_entry (r : vector) (off j : nat) (x : float) :
  off <= length r ->
  nth j (take off r ++ x :: drop off r) 0%R =
  if decide (j < off) then nth j r 0%R
  else if decide (j = off) then x else nth (j - 1) r 0%R.
Proof.
  intros Hoff.
  assert (Hlen : length (take off r) = off) by (rewrite length_take; lia).
  case_decide as Hlt.
  - rewrite app_nth1 by lia. rewrite nth_firstn.
    by rewrite (proj2 (Nat.ltb_lt j off)).
  - rewrite app_nth2 by lia. rewrite Hlen.
    case_decide as Heq.
    + subst j. by rewrite Nat.sub_diag.
    + destruct (j - off) as [|m] eqn:Hm; [lia|]. cbn.
      rewrite nth_skipn. f_equal. lia.
Qed.

Lemma column_insert_column (r c off j : nat) (M : matrix) (col : vector) :
  has_shape r c M -> length col = r -> off <= c ->
  column (insert_column M off col) j =
  if decide (j < off) then column M j
  else if decide (j = off) then col else column M (j - 1).
Proof.
  intros [Hr Hc] Hcol Hoff. unfold nrows in Hr. subst r.
  unfold column, insert_column.
  revert col Hcol. induction Hc as [|row M Hrow _ IH]; intros col Hcol.
  - destruct col; [|done]. cbn. by repeat case_decide.
  - destruct col as [|x col]; [done|]. cbn.
    rewrite nth_insert_entry by lia.
    rewrite IH by (cbn in Hcol; lia).
    by repeat case_decide.
Qed.

(** X1. Registering a new user puts a freshly drawn column into [R] at the
    position [n_user], the end of the block of the users: the columns to
    its left stay where they are, the columns from there on (the contexts
    and the items) move one place to the right. *)
Theorem register_user_columns (c : contexts_t) (st : state) (u : Z) (j : nat) :
  width_ok c st ->
  column (R (register_user rnd st u)) j =
  if decide (j < n_user st) then column (R st) j
  else if decide (j = n_user st) then normal_col rnd (gen st)
  else column (R st) (j - 1).
Proof.
  intros (HR & Hp & _). cbn.
  replace (n_user st + 1 - 1) with (n_user st) by lia.
  apply (column_insert_column k (p st)); [done|apply length_normal_col|lia].
Qed.

(** X2. A completed registration of a new item puts a freshly drawn column
    into [R] at the position [n_user + contexts['user'] +
    contexts['others'] + n_item], the end of the block of the items and
    before the item context; the other columns keep their order. *)
Theorem register_item_columns
    (c : contexts_t) (st st' : state) (i : Z) (d : event) (j : nat) :
  width_ok c st -> contexts st = c ->
  register_item rnd st i d = (st', Ok ()) ->
  let off := n_user st + ctx_user c + ctx_others c + n_item st in
  column (R st') j =
  if decide (j < off) then column (R st) j
  else if decide (j = off) then normal_col rnd (gen st)
  else column (R st) (j - 1).
Proof.
  intros (HR & Hp & _) Hctx Hreg off.
  assert (E : R st' = insert_column (R st) off (normal_col rnd (gen st))).
  { revert Hreg. split_register_item; intros Hreg; try done;
      injection Hreg as <-; cbn; rewrite Hctx; f_equal; unfold off; lia. }
  rewrite E.
  apply (column_insert_column k (p st)); [done|apply length_normal_col|].
  unfold off. lia.
Qed.

(** ** How the item store grows *)

Lemma store_nonempty (s : item_store) :
  store_size s <> 0 -> store_rows s <> [].
Proof. destruct s as [m|m]; cbn; by intros H ->. Qed.

Lemma column_app (M N : matrix) (j : nat) :
  column (M ++ N) j = column M j ++ column N j.
Proof. unfold column. apply map_app. Qed.

Lemma column_take (M : matrix) (n j : nat) :
  column (take n M) j = take n (column M j).
Proof. unfold column. symmetry. apply firstn_map. Qed.

Lemma column_drop (M : matrix) (n j : nat) :
  column (drop n M) j = drop n (column M j).
Proof. unfold column. symmetry. apply skipn_map. Qed.

Lemma column_hstack (c : nat) (M : matrix) (col : vector) (j : nat) :
  Forall (fun row => length row = c) M -> length M = length col ->
  column (zip_with app M (map (fun x => [x]) col)) j =
  if decide (j < c) then column M j
  else if decide (j = c) then col else zeros (length M).
Proof.
  intros H. unfold column. revert col.
  induction H as [|row M Hrow _ IH]; intros [|x col] Hlen; try done; cbn.
  - by repeat case_decide.
  - rewrite IH by (cbn in Hlen; lia).
    case_decide as Hlt.
    + f_equal. apply app_nth1. lia.
    + rewrite app_nth2 by lia. rewrite Hrow.
      case_decide as Heq.
      * subst j. by rewrite Nat.sub_diag.
      * destruct (j - c) as [|[|m]] eqn:Hm; [lia| |]; done.
Qed.

Lemma hstack_rows (c : nat) (M : matrix) (col : vector) :
  Forall (fun row => length row = c) M ->
  Forall (fun row => length row = c + 1) (zip_with app M (map (fun x => [x]) col)).
Proof.
  intros H. revert col.
  induction H as [|row M Hrow _ IH]; intros [|x col]; cbn; try constructor.
  - rewrite length_app. cbn. lia.
  - apply IH.
Qed.

(** X3. When a new item is registered into a store [i_mat] of [r] rows and
    [c] columns that holds entries, and the registration completes, the
    store has one row and one column more; the registration completes only
    if the item context has [r - n_item] entries; the new last column is
    [n_item + 1] zeros followed by the item context, so the identity entry
    of the new item is zero; and every old column is the column it was with
    a zero inserted at row [n_item]. *)
Theorem register_item_grows_store
    (r c : nat) (st st' : state) (i : Z) (d : event) (ctx : vector) :
  has_shape r c (store_rows (i_mat st)) ->
  store_size (i_mat st) <> 0 ->
  item d = Some ctx ->
  register_item rnd st i d = (st', Ok ()) ->
  has_shape (r + 1) (c + 1) (store_rows (i_mat st')) /\
  r = n_item st + length ctx /\
  column (store_rows (i_mat st')) c = zeros (n_item st + 1) ++ ctx /\
  forall j, j < c ->
    column (store_rows (i_mat st')) j =
    take (n_item st) (column (store_rows (i_mat st)) j) ++ 0%R ::
    drop (n_item st) (column (store_rows (i_mat st)) j).
Proof.
  intros [Hr Hc] Hsize Hctx. unfold register_item. rewrite Hctx.
  change (i_mat (allocate_item st i)) with (i_mat st).
  change (n_item (allocate_item st i)) with (n_item st + 1).
  rewrite decide_False by done.
  replace (n_item st + 1 - 1) with (n_item st) by lia.
  set (m := store_rows (i_mat st)) in *.
  assert (Hcols : ncols m = c).
  { apply store_nonempty in Hsize. fold m in Hsize.
    destruct m as [|row m']; [done|]. by inversion Hc. }
  rewrite Hcols.
  destruct (vstack _ _ _ _) as [m0|e] eqn:Hstack; [|done].
  apply vstack_rows in Hstack as ->.
  set (m1 := take (n_item st) m ++ zeros2 1 c ++ drop (n_item st) m).
  assert (Hm1 : Forall (fun row => length row = c) m1).
  { unfold m1. rewrite !Forall_app. split; [by apply Forall_take|].
    split; [|by apply Forall_drop].
    unfold zeros2, zeros. apply Forall_replicate, length_replicate. }
  assert (Hm1r : nrows m1 = r + 1).
  { unfold m1, nrows in *. rewrite !length_app, length_take, length_drop.
    unfold zeros2. rewrite length_replicate. lia. }
  case_decide as Hrows; [|done]. intros [= <-].
  cbn [store_rows i_mat set_i_mat grow_R_item].
  set (col := zeros (n_item st + 1) ++ ctx) in *.
  assert (Hlen : length m1 = length col).
  { unfold nrows in Hrows. by rewrite length_map in Hrows. }
  split; [|split; [|split]].
  - split.
    + unfold nrows in *. rewrite length_zip_with, length_map. lia.
    + by apply hstack_rows.
  - unfold nrows in Hm1r. rewrite Hlen in Hm1r. unfold col in Hm1r.
    rewrite length_app in Hm1r. unfold zeros in Hm1r.
    rewrite length_replicate in Hm1r. lia.
  - rewrite (column_hstack c) by done.
    rewrite decide_False by lia. by rewrite decide_True.
  - intros j Hj. rewrite (column_hstack c) by done.
    rewrite decide_True by done.
    unfold m1. rewrite !column_app, column_take, column_drop.
    do 2 f_equal. unfold zeros2, column. cbn. f_equal. apply nth_zeros.
Qed.

End Columns.

Section Registry.

Variable rnd : nat -> float.
Variable svd : matrix -> option (matrix * vector * matrix).
Variable pow2 : float -> float.

(** ** What [check] does to the registries *)

Lemma register_item_registries (st : state) (i : Z) (d : event) :
  users (fst (register_item rnd st i d)) = users st /\
  items (fst (register_item rnd st i d)) = <[i := ()]> (items st).
Proof.
  split_register_item; done.
Qed.

(** X4. After a completed [check] both keys of the event are registered,
    and checking the same event again completes and changes nothing. *)
Theorem check_registers_both (st st' : state) (d : event) :
  check rnd st d = (st', Ok ()) ->
  (exists u i, u_index d = Some u /\ i_index d = Some i /\
     is_Some (users st' !! u) /\ is_Some (items st' !! i)) /\
  check rnd st' d = (st', Ok ()).
Proof.
  intros H.
  assert (Hreg : exists u i, u_index d = Some u /\ i_index d = Some i /\
            is_Some (users st' !! u) /\ is_Some (items st' !! i)).
  { revert H. unfold check.
    destruct (u_index d) as [u|]; [|done].
    set (st1 := if decide (is_Some (users st !! u)) then st
                else register_user rnd st u).
    assert (H1 : is_Some (users st1 !! u)).
    { subst st1. case_decide; [done|]. cbn. rewrite lookup_insert_eq. by eexists. }
    destruct (i_index d) as [i|]; [|done].
    intros H. exists u, i. split; [done|]. split; [done|].
    case_decide as Hi.
    - injection H as <-. done.
    - destruct (register_item_registries st1 i d) as [Hu Hit].
      rewrite H in Hu, Hit. cbn in Hu, Hit.
      rewrite Hu, Hit, lookup_insert_eq. split; [done|by eexists]. }
  split; [exact Hreg|].
  destruct Hreg as (u & i & Hu & Hi & Hku & Hki).
  unfold check. rewrite Hu, Hi.
  rewrite (decide_True (P := is_Some (users st' !! u))) by done.
  by rewrite (decide_True (P := is_Some (items st' !! i))) by done.
Qed.

(** X5. [check] never forgets: a user or an item that is registered stays
    registered, whether the call completes or raises. *)
Theorem check_keeps_registered (st : state) (d : event) :
  (forall u, is_Some (users st !! u) -> is_Some (users (fst (check rnd st d)) !! u)) /\
  (forall i, is_Some (items st !! i) -> is_Some (items (fst (check rnd st d)) !! i)).
Proof.
  unfold check.
  destruct (u_index d) as [u|]; [|done].
  set (st1 := if decide (is_Some (users st !! u)) then st else register_user rnd st u).
  assert (H1 : (forall u', is_Some (users st !! u') -> is_Some (users st1 !! u')) /\
               items st1 = items st).
  { subst st1. case_decide; [done|]. cbn. split; [|done].
    intros u' Hu'. apply lookup_insert_is_Some'. by right. }
  destruct H1 as [H1u H1i].
  destruct (i_index d) as [i|];
    [|cbn; split; [done|intros; by rewrite H1i]].
  case_decide; [cbn; split; [done|intros; by rewrite H1i]|].
  destruct (register_item_registries st1 i d) as [-> ->].
  split; [done|]. intros i' Hi'.
  apply lookup_insert_is_Some'. right. by rewrite H1i.
Qed.

(** X6. An event of a registered user and a new item that lacks the item
    context makes [check] raise [KeyError] after the item was entered into
    the registry: [n_item] and [p] are one larger, while neither the item
    store nor [R] has a row or column for it, and every later event with
    these keys passes [check] without anything being added. *)
Theorem check_missing_context_marks_item
    (st : state) (d : event) (u i : Z) :
  u_index d = Some u -> is_Some (users st !! u) ->
  i_index d = Some i -> items st !! i = None ->
  item d = None ->
  let st' := fst (check rnd st d) in
  snd (check rnd st d) = Raise KeyError /\
  is_Some (items st' !! i) /\
  n_item st' = n_item st + 1 /\
  p st' = p st + 1 /\
  i_mat st' = i_mat st /\
  R st' = R st /\
  forall d', u_index d' = Some u -> i_index d' = Some i ->
    check rnd st' d' = (st', Ok ()).
Proof.
  intros Hu Hku Hi Hki Hctx.
  cbv zeta. rewrite (check_new_item rnd st d u i Hu Hku Hi Hki).
  unfold register_item. rewrite Hctx.
  cbn [fst snd items n_item p i_mat R users allocate_item].
  split; [done|]. split; [apply lookup_insert_is_Some'; by left|].
  do 4 (split; [done|]).
  intros d' Hu' Hi'. unfold check. rewrite Hu', Hi'.
  cbn [items users allocate_item].
  rewrite (decide_True (P := is_Some (users st !! u))) by done.
  rewrite decide_True; [done|]. apply lookup_insert_is_Some'. by left.
Qed.

(** ** The counters and the registries *)

Lemma registry_ok_insert_column (st : state) (w : nat) (off : nat) (col : vector) :
  Forall (fun r => length r = w) (R st) ->
  Forall (fun r => length r = w + 1) (insert_column (R st) off col).
Proof.
  intros H. unfold insert_column. revert col.
  induction H as [|row M Hrow _ IH]; intros [|x col]; cbn; constructor; [|apply IH].
  rewrite length_app. cbn. rewrite length_take, length_drop. lia.
Qed.

Lemma nrows_insert_column (M : matrix) (off : nat) (col : vector) :
  length col = nrows M -> nrows (insert_column M off col) = nrows M.
Proof. intros H. unfold nrows, insert_column in *. rewrite length_zip_with. lia. Qed.

Lemma registry_ok_register_user (st : state) (u : Z) :
  users st !! u = None -> registry_ok st -> registry_ok (register_user rnd st u).
Proof.
  intros Hu (Hnu & Hni & Hr & w & Hw & HF). unfold registry_ok. cbn.
  split; [rewrite map_size_insert_None by done; lia|]. split; [done|]. split.
  - rewrite nrows_insert_column; [done|]. by rewrite length_normal_col.
  - exists (w + 1). split; [lia|]. by apply registry_ok_insert_column.
Qed.

Lemma registry_ok_register_item (st : state) (i : Z) (d : event) :
  items st !! i = None -> registry_ok st ->
  registry_ok (fst (register_item rnd st i d)).
Proof.
  intros Hi (Hnu & Hni & Hr & w & Hw & HF).
  assert (Halloc : forall m, registry_ok (set_i_mat (allocate_item st i) m)).
  { intros m. unfold registry_ok. cbn. split; [done|].
    split; [rewrite map_size_insert_None by done; lia|]. split; [done|].
    exists w. split; [lia|done]. }
  assert (Hgrow : forall m,
    registry_ok (grow_R_item rnd (set_i_mat (allocate_item st i) m))).
  { intros m. unfold registry_ok. cbn. split; [done|].
    split; [rewrite map_size_insert_None by done; lia|]. split.
    - rewrite nrows_insert_column; [done|]. by rewrite length_normal_col.
    - exists (w + 1). split; [lia|]. by apply registry_ok_insert_column. }
  assert (Hst : registry_ok (allocate_item st i)).
  { destruct (Halloc (i_mat st)) as (? & ? & ? & ?). done. }
  split_register_item; cbn [fst];
    first [apply Hgrow | apply Halloc | exact Hst].
Qed.

Lemma registry_ok_check (st : state) (d : event) :
  registry_ok st -> registry_ok (fst (check rnd st d)).
Proof.
  intros H. unfold check.
  destruct (u_index d) as [u|]; [|done].
  set (st1 := if decide (is_Some (users st !! u)) then st else register_user rnd st u).
  assert (H1 : registry_ok st1).
  { subst st1. case_decide as Hu; [done|].
    apply registry_ok_register_user; [|done]. by apply eq_None_not_Some. }
  destruct (i_index d) as [i|]; [|done].
  case_decide as Hi; [done|].
  apply registry_ok_register_item; [|done]. by apply eq_None_not_Some.
Qed.

Lemma update_registry_frame (st : state) (d : event) :
  users (fst (update svd pow2 st d)) = users st /\
  p (fst (update svd pow2 st d)) = p st /\
  contexts (fst (update svd pow2 st d)) = contexts st /\
  gen (fst (update svd pow2 st d)) = gen st.
Proof.
  unfold update.
  destruct (observe st d) as [y|]; [|done].
  destruct (set_column _ _ _) as [b|]; [|done].
  destruct (svd b) as [[[u s] v]|]; [|done].
  destruct (rebuild pow2 _ _); done.
Qed.

(** X7. In every state the model can reach, whatever calls completed or
    raised, [n_user] and [n_item] are the numbers of registered users and
    items, [R] has [k] rows, and the rows of [R] have one common length,
    which is at most [p]. *)
Theorem reachable_registry_ok (st : state) :
  reachable rnd svd pow2 st -> registry_ok st.
Proof.
  induction 1 as [c g | st _ IH | st d _ IH | st d _ IH].
  - unfold registry_ok. cbn. rewrite !map_size_empty.
    destruct (has_shape_normal rnd g k (ctx_user c + ctx_others c + ctx_item c))
      as [Hr HF].
    repeat split; try done. eexists. split; [|exact HF]. lia.
  - unfold registry_ok. cbn. rewrite !map_size_empty.
    destruct (has_shape_normal rnd (gen st) k (p st)) as [Hr HF].
    repeat split; try done. eexists. split; [|exact HF]. lia.
  - by apply registry_ok_check.
  - destruct IH as (Hnu & Hni & Hr & w & Hw & HF).
    destruct (update_frame svd pow2 st d) as (_ & HR & Hn & Hm & Hit).
    destruct (update_registry_frame st d) as (Hus & Hp & _).
    unfold registry_ok. rewrite HR, Hn, Hm, Hit, Hus, Hp.
    repeat split; try done. by exists w.
Qed.

End Registry.

Section UpdateEffects.

Variable rnd : nat -> float.
Variable svd : matrix -> option (matrix * vector * matrix).
Variable pow2 : float -> float.

(** ** What [update] leaves alone *)

(** X8. [check] and [update] change disjoint parts of the model: [update],
    on every path, also when it raises, leaves the declared contexts, [p],
    the counters, the registries, the item store, [R] and the random stream
    as they are; [check] leaves the sketch [B] and the basis [U] as they
    are. *)
Theorem update_touches_sketch_only (st : state) (d : event) :
  let st' := fst (update svd pow2 st d) in
  (contexts st' = contexts st /\ p st' = p st /\
   n_user st' = n_user st /\ users st' = users st /\
   n_item st' = n_item st /\ items st' = items st /\
   i_mat st' = i_mat st /\ R st' = R st /\ gen st' = gen st) /\
  B (fst (check rnd st d)) = B st /\
  U (fst (check rnd st d)) = U st.
Proof.
  cbv zeta. split; [|split; [apply B_check|apply U_check]].
  unfold update.
  destruct (observe st d) as [y|]; [|done].
  destruct (set_column _ _ _) as [b|]; [|done].
  destruct (svd b) as [[[u s] v]|]; [|done].
  destruct (rebuild pow2 _ _); done.
Qed.

(** ** The width of the feature vector *)

Lemma length_setitem (a a' : vector) (i : Z) (v : float) :
  setitem a i v = Ok a' -> length a' = length a.
Proof.
  unfold setitem. destruct (norm_index _ _); [|done].
  intros [= <-]. apply length_insert.
Qed.

Lemma feature_vector_length (st : state) (d : event) (x cu co ci : vector) :
  user d = Some cu -> others d = Some co -> item d = Some ci ->
  feature_vector st d = Ok x ->
  length x = n_user st + length cu + length co + n_item st + length ci.
Proof.
  intros Hcu Hco Hci. unfold feature_vector. rewrite Hcu, Hco, Hci. cbn.
  destruct (u_index d) as [u|]; [cbn|done].
  destruct (setitem _ u _) as [xu|] eqn:Hxu; [cbn|done].
  destruct (i_index d) as [i|]; [cbn|done].
  destruct (setitem _ i _) as [xi|] eqn:Hxi; [cbn|done].
  intros [= <-].
  apply length_setitem in Hxu, Hxi.
  rewrite !length_app, Hxu, Hxi, !length_app.
  unfold zeros. rewrite !length_replicate. lia.
Qed.

(** X9. [update] compares only the total length of the three context
    vectors of an event with the total that was declared: when the totals
    agree the event is projected onto [k] dimensions, whatever the sizes of
    the single contexts are; when they differ [update] raises [ValueError]
    and leaves the model as it is. *)
Theorem update_checks_total_width
    (c : contexts_t) (st : state) (d : event) (x cu co ci : vector) :
  width_ok c st ->
  user d = Some cu -> others d = Some co -> item d = Some ci ->
  feature_vector st d = Ok x ->
  (length cu + length co + length ci = ctx_user c + ctx_others c + ctx_item c ->
   exists v, project st d = Ok v /\ length v = k) /\
  (length cu + length co + length ci <> ctx_user c + ctx_others c + ctx_item c ->
   update svd pow2 st d = (st, Raise ValueError)).
Proof.
  intros (HR & Hp & _) Hcu Hco Hci Hx.
  pose proof (feature_vector_length st d x cu co ci Hcu Hco Hci Hx) as Hlen.
  pose proof (ncols_shape k (p st) (R st) HR k_positive) as Hcols.
  split; intros Hsum.
  - unfold project. rewrite Hx. cbn. unfold mat_vec.
    rewrite decide_True by lia. eexists. split; [done|].
    rewrite length_map. apply HR.
  - unfold update, observe, project. rewrite Hx. cbn. unfold mat_vec.
    rewrite decide_False by lia. done.
Qed.

(** ** Events that lack a field *)

Lemma setitem_raises (a : vector) (i : Z) (v : float) (e : error) :
  setitem a i v = Raise e -> e = IndexError.
Proof. unfold setitem. destruct (norm_index _ _); [done|]. by intros [= <-]. Qed.

(** X10. An event that lacks one of the five fields makes [update] raise
    [KeyError], or [IndexError] when an index that is read before the
    missing field is out of range, and the model is left as it is. *)
Theorem update_missing_field_unchanged (st : state) (d : event) :
  user d = None \/ u_index d = None \/ item d = None \/
  i_index d = None \/ others d = None ->
  exists e, (e = KeyError \/ e = IndexError) /\
            update svd pow2 st d = (st, Raise e).
Proof.
  intros H.
  assert (Hf : exists e, (e = KeyError \/ e = IndexError) /\
                         feature_vector st d = Raise e).
  { unfold feature_vector.
    destruct (user d) as [cu|]; [cbn|by exists KeyError; auto].
    destruct (u_index d) as [u|]; [cbn|by exists KeyError; auto].
    destruct (setitem _ u _) as [xu|e] eqn:Hxu; [cbn|].
    2:{ apply setitem_raises in Hxu as ->. exists IndexError. auto. }
    destruct (item d) as [ci|]; [cbn|by exists KeyError; auto].
    destruct (i_index d) as [i|]; [cbn|by exists KeyError; auto].
    destruct (setitem _ i _) as [xi|e] eqn:Hxi; [cbn|].
    2:{ apply setitem_raises in Hxi as ->. exists IndexError. auto. }
    destruct (others d) as [co|]; [cbn|by exists KeyError; auto].
    destruct H as [H|[H|[H|[H|H]]]]; discriminate H. }
  destruct Hf as (e & He & Hf). exists e. split; [done|].
  unfold update, observe, project. by rewrite Hf.
Qed.

(** ** Indices beyond the registered users *)

(** X11. [update] does not ask whether the user of an event is registered:
    an index that lies [j] places beyond the registered users, [j] smaller
    than the size of the user context, sets entry [j] of the user context
    to one instead of an identity entry. *)
Theorem feature_vector_unregistered_user
    (st : state) (d : event) (j i : nat) (cu co ci : vector) :
  u_index d = Some (Z.of_nat (n_user st + j)) ->
  i_index d = Some (Z.of_nat i) ->
  user d = Some cu -> others d = Some co -> item d = Some ci ->
  j < length cu -> i < n_item st ->
  feature_vector st d =
    Ok (zeros (n_user st) ++ <[j := 1%R]> cu ++ co ++ one_hot (n_item st) i ++ ci).
Proof.
  intros Hu Hi Hcu Hco Hci Hj Hli.
  unfold feature_vector. rewrite Hcu, Hu, Hci, Hi, Hco. cbn.
  unfold setitem at 1.
  rewrite norm_index_nat
    by (rewrite length_app; unfold zeros; rewrite length_replicate; lia).
  cbn. rewrite (setitem_one_hot _ _ ci Hli). cbn.
  rewrite insert_app_r_alt by (unfold zeros; rewrite length_replicate; lia).
  unfold zeros at 2. rewrite length_replicate.
  replace (n_user st + j - n_user st) with j by lia.
  by rewrite <- (assoc_L (++)).
Qed.

(** ** The column written into the sketch *)

Lemma set_column_rows (c j : nat) (M : matrix) (y : vector) :
  Forall (fun row => length row = c) M ->
  Forall (fun row => length row = c) (zip_with (fun r v => <[j := v]> r) M y).
Proof.
  intros H. revert y. induction H as [|row M Hrow _ IH]; intros [|x y]; cbn;
    constructor; [by rewrite length_insert|apply IH].
Qed.

Lemma column_zip_insert (c j j' : nat) (M : matrix) (y : vector) :
  Forall (fun row => length row = c) M -> j < c -> length y = length M ->
  column (zip_with (fun r v => <[j := v]> r) M y) j' =
  if decide (j' = j) then y else column M j'.
Proof.
  intros H Hj. unfold column. revert y.
  induction H as [|row M Hrow _ IH]; intros [|x y] Hy; try done; cbn.
  - by case_decide.
  - rewrite IH by (cbn in Hy; lia).
    case_decide as E.
    + subst j'. f_equal. apply nth_lookup_Some with (d := 0%R).
      apply list_lookup_insert_eq. lia.
    + f_equal. rewrite !nth_lookup. by rewrite list_lookup_insert_ne.
Qed.

Lemma column_set_column (r c : nat) (M b : matrix) (j j' : nat) (y : vector) :
  has_shape r c M ->
  set_column M j y = Ok b ->
  has_shape r c b /\
  column b j' = if decide (j' = j) then y else column M j'.
Proof.
  intros [Hr Hc] Hb.
  destruct (set_column_shape _ _ _ _ Hb) as [Hbr _].
  revert Hb. unfold set_column.
  case_decide as Hj; [|done]. case_decide as Hy; [|done]. intros [= <-].
  split; [split; [congruence|by apply set_column_rows]|].
  destruct M as [|row M]; [by destruct y; cbn; case_decide|].
  apply (column_zip_insert c); [done| |done].
  cbn in Hj. by inversion Hc; subst.
Qed.

(** X12. When the SVD does not converge, [update] raises [LinAlgError]
    after the sketch was written: the observation is in the column that was
    free, the other columns and the shape of [B] are as before, and nothing
    else of the model changed. *)
Theorem update_svd_failure
    (r c : nat) (st : state) (d : event) (y : vector) (b : matrix) :
  has_shape r c (B st) ->
  observe st d = Ok y ->
  set_column (B st) (free_slot (B st)) y = Ok b ->
  svd b = None ->
  update svd pow2 st d = (set_B st b, Raise LinAlgError) /\
  column b (free_slot (B st)) = y /\
  (forall j, j <> free_slot (B st) -> column b j = column (B st) j) /\
  has_shape r c b.
Proof.
  intros HB Hy Hb Hsvd. split.
  - unfold update. by rewrite Hy, Hb, Hsvd.
  - split; [|split].
    + destruct (column_set_column r c _ _ _ (free_slot (B st)) _ HB Hb) as [_ ->].
      by rewrite decide_True.
    + intros j Hj.
      destruct (column_set_column r c _ _ _ j _ HB Hb) as [_ ->].
      by rewrite decide_False.
    + by destruct (column_set_column r c _ _ _ 0 _ HB Hb).
Qed.

(** ** The column that [update] takes for free *)

Lemma head_filter_seq_least
    (P : nat -> Prop) `{!forall j, Decision (P j)} (n j : nat) :
  head (filter P (seq 0 n)) = Some j ->
  P j /\ j < n /\ forall j', j' < j -> ~ P j'.
Proof.
  intros Hh. pose proof Hh as Hh'.
  apply head_filter_Some in Hh as (l1 & l2 & Hseq & Hl1).
  assert (Hin : j ∈ filter P (seq 0 n)).
  { destruct (filter P (seq 0 n)); [done|]. injection Hh' as ->. by left. }
  apply list_elem_of_filter in Hin as [HP Hin].
  apply elem_of_seq in Hin.
  split; [done|]. split; [lia|]. intros j' Hj'.
  assert (Hl : length l1 = j).
  { assert (Hj : seq 0 n !! length l1 = Some j)
      by (rewrite Hseq; by apply list_lookup_middle).
    apply lookup_seq in Hj. lia. }
  assert (Hj1 : l1 !! j' = Some j').
  { assert (E : seq 0 n !! j' = Some j') by (apply lookup_seq; lia).
    rewrite Hseq, lookup_app_l in E by lia. done. }
  rewrite Forall_forall in Hl1. apply Hl1.
  by eapply list_elem_of_lookup_2.
Qed.

Lemma free_slot_least (b : matrix) :
  (zero_cols b <> [] ->
     free_slot b ∈ zero_cols b /\
     forall j, j < free_slot b -> j ∉ zero_cols b) /\
  (zero_cols b = [] -> free_slot b = ell - 1).
Proof.
  unfold free_slot. split.
  - destruct (zero_cols b) as [|j0 js] eqn:Hz; [done|]. intros _.
    split; [by left|]. intros j Hj Hin.
    assert (Hhead : head (zero_cols b) = Some j0) by (by rewrite Hz).
    unfold zero_cols in Hhead.
    apply head_filter_seq_least in Hhead as (_ & _ & Hleast).
    rewrite <- Hz in Hin. unfold zero_cols in Hin.
    apply list_elem_of_filter in Hin as [HP _].
    by apply (Hleast j Hj).
  - by intros ->.
Qed.

Lemma isclose_zero_iff (x : float) :
  isclose x 0%R = true <-> (Rabs x <= atol)%R.
Proof.
  unfold isclose. rewrite bool_decide_eq_true.
  rewrite Rminus_0_r, Rabs_R0, Rmult_0_r, Rplus_0_r. done.
Qed.

Lemma zero_cols_near_zero (M : matrix) (j : nat) :
  j ∈ zero_cols M <->
  j < ncols M /\ Forall (fun x => (Rabs x <= atol)%R) (column M j).
Proof.
  unfold zero_cols. rewrite list_elem_of_filter, elem_of_seq, forallb_forall.
  rewrite Forall_forall. split.
  - intros [Hall Hj]. split; [lia|]. intros x Hx.
    apply isclose_zero_iff. by apply Hall, list_elem_of_In.
  - intros [Hj Hall]. split; [|lia]. intros x Hx.
    apply isclose_zero_iff. by apply Hall, list_elem_of_In.
Qed.

(** X13. The column that [update] overwrites is the left-most column of [B]
    whose entries all lie within the absolute tolerance [atol] of zero, be
    they zero or not; when [B] has no such column it is the last column of
    the sketch, [ell - 1]. *)
Theorem free_slot_leftmost (b : matrix) :
  let near_zero := fun j =>
    j < ncols b /\ Forall (fun x => (Rabs x <= atol)%R) (column b j) in
  (forall j, near_zero j -> near_zero (free_slot b) /\ free_slot b <= j) /\
  ((forall j, ~ near_zero j) -> free_slot b = ell - 1).
Proof.
  cbv zeta. destruct (free_slot_least b) as [Hsome Hnone]. split.
  - intros j Hj. apply zero_cols_near_zero in Hj.
    assert (Hne : zero_cols b <> []) by (intros E; rewrite E in Hj; inversion Hj).
    destruct (Hsome Hne) as [Hin Hleast].
    split; [by apply zero_cols_near_zero|].
    destruct (decide (free_slot b <= j)) as [|Hgt]; [done|].
    exfalso. apply (Hleast j); [lia|done].
  - intros Hno. apply Hnone.
    destruct (zero_cols b) as [|j0 js] eqn:E; [done|].
    exfalso. apply (Hno j0), zero_cols_near_zero. rewrite E. by left.
Qed.

End UpdateEffects.

Section SketchInvariant.

Variable rnd : nat -> float.
Variable svd : matrix -> option (matrix * vector * matrix).
Variable pow2 : float -> float.

(** ** The shape of sketch and basis *)

Lemma has_shape_zeros2 (r c : nat) : has_shape r c (zeros2 r c).
Proof.
  unfold zeros2, zeros. split.
  - unfold nrows. apply length_replicate.
  - apply Forall_replicate, length_replicate.
Qed.

Lemma rebuild_has_shape (u b : matrix) (s : vector) :
  rebuild pow2 u s = Ok b -> has_shape (nrows u) (Nat.min ell (length s)) b.
Proof.
  unfold rebuild.
  destruct (shrink pow2 (take ell s)) as [s'|] eqn:Hs; [cbn|done].
  intros Hb. rewrite <- (length_take s ell), <- (shrink_length _ _ _ Hs).
  by apply (mat_mul_diag_shape u).
Qed.

Lemma sketch_ok_update (st : state) (d : event) :
  svd_shapes svd -> sketch_ok st -> sketch_ok (fst (update svd pow2 st d)).
Proof.
  intros Hsvd [HB HU]. unfold update.
  destruct (observe st d) as [y|]; [|by split].
  destruct (set_column _ _ _) as [b|] eqn:Hb; [|by split].
  destruct (column_set_column _ _ _ _ _ 0 _ HB Hb) as [Hbs _].
  destruct (svd b) as [[[u s] v]|] eqn:Hs; [|by split].
  assert (Hbc : ncols b = ell) by (apply (ncols_shape k); [done|apply k_positive]).
  destruct (Hsvd _ _ _ _ (proj1 Hbs) Hbc Hs) as [Hu Hlen].
  assert (Hut : nrows (truncate_basis u) = k).
  { unfold truncate_basis, nrows in *. by rewrite length_map. }
  destruct (rebuild pow2 _ _) as [b'|] eqn:Hb'; cbn.
  - split; cbn.
    + apply rebuild_has_shape in Hb'. by rewrite Hut, Hlen, Nat.min_id in Hb'.
    + by intros ? [= <-].
  - split; cbn; [done|]. by intros ? [= <-].
Qed.

(** X14. Provided the SVD returns factors of the promised shapes, in every
    state the model can reach each of the [k] rows of the sketch [B] has
    [ell] entries, and the basis [U], once an update has set it, has [k]
    rows; this holds after calls that raised as well. *)
Theorem reachable_sketch_ok (st : state) :
  svd_shapes svd -> reachable rnd svd pow2 st -> sketch_ok st.
Proof.
  intros Hsvd. induction 1 as [c g | st _ IH | st d _ IH | st d _ IH].
  - split; [apply has_shape_zeros2|done].
  - split; [apply has_shape_zeros2|apply IH].
  - unfold sketch_ok. rewrite B_check, U_check. exact IH.
  - by apply sketch_ok_update.
Qed.

(** ** A model that was cleared *)

(** X15. [clear] resets the counters but not [p]: once users or items were
    registered, [R] is drawn as wide after [clear] as it had grown before,
    and after any completed registrations on the cleared model [update]
    raises on every well-formed event and changes nothing. *)
Theorem update_after_clear_raises
    (c : contexts_t) (st0 st : state) (ds : list event) (d : event) :
  width_ok c st0 ->
  0 < n_user st0 + n_item st0 ->
  register_all rnd (clear rnd st0) ds = (st, Ok ()) ->
  well_formed c d ->
  exists e, update svd pow2 st d = (st, Raise e).
Proof.
  intros (HR0 & Hp0 & _) Hpos Hrun
    (_ & _ & (cu & Hcu & Hlu) & (co & Hco & Hlo) & (ci & Hci & Hli)).
  assert (Hw : width_ok (mkContexts (p st0) 0 0) (clear rnd st0)).
  { unfold width_ok. cbn. rewrite !map_size_empty.
    split; [apply has_shape_normal|]. lia. }
  destruct (width_ok_register_all rnd _ ds _ _ Hw Hrun) as (HR & Hp & _).
  cbn in Hp.
  unfold update, observe, project.
  destruct (feature_vector st d) as [x|e] eqn:Hx; [cbn|by exists e].
  pose proof (feature_vector_length st d x cu co ci Hcu Hco Hci Hx) as Hlen.
  pose proof (ncols_shape k (p st) (R st) HR k_positive) as Hcols.
  unfold mat_vec. rewrite decide_False by lia. by exists ValueError.
Qed.

End SketchInvariant.

Section ShrinkExact.

Local Open Scope R_scope.

Variable svd : matrix -> option (matrix * vector * matrix).
Variable pow2 : float -> float.

(** ** How much the shrink step removes *)

Lemma bigsum_minus_const (n : nat) (f : nat -> float) (c : float) :
  bigsum n (fun j => f j - c) = bigsum n f - INR n * c.
Proof.
  induction n as [|n IH]; [cbn; lra|].
  rewrite S_INR. cbn [bigsum]. rewrite IH. lra.
Qed.


End ShrinkExact.

Section Scores.

Local Open Scope R_scope.

Variable recos : Type.
Variable scores2recos : vector -> list Z -> Z -> recos.

(** ** Negative target indices *)

Lemma norm_index_negative (n : nat) (t : Z) :
  (- Z.of_nat n <= t < 0)%Z ->
  norm_index n t = norm_index n (Z.of_nat n + t).
Proof.
  intros H. unfold norm_index.
  rewrite (bool_decide_eq_false_2 (0 <= t < _)%Z) by lia.
  rewrite bool_decide_eq_true_2 by lia.
  rewrite (bool_decide_eq_true_2 (0 <= _ + t < _)%Z) by lia.
  done.
Qed.

Lemma take_indices_app (n : nat) (js1 js2 : list Z) :
  take_indices n (js1 ++ js2) =
  bind (take_indices n js1) (fun c1 =>
    bind (take_indices n js2) (fun c2 => Ok (c1 ++ c2))).
Proof.
  induction js1 as [|j js1 IH]; cbn.
  - by destruct (take_indices n js2).
  - destruct (norm_index n j); [|done]. rewrite IH.
    destruct (take_indices n js1); [cbn|done].
    by destruct (take_indices n js2).
Qed.

Lemma candidates_negative_target
    (st : state) (d : event) (ts1 ts2 : list Z) (t : Z) :
  let n := ncols (store_rows (i_mat st)) in
  (- Z.of_nat n <= t < 0)%Z ->
  candidates st d (ts1 ++ t :: ts2) =
  candidates st d (ts1 ++ (Z.of_nat n + t)%Z :: ts2).
Proof.
  intros n Ht. unfold candidates, select_columns. fold n.
  rewrite !take_indices_app. cbn [take_indices].
  rewrite (norm_index_negative n t Ht).
  by rewrite !length_app.
Qed.

(** X17. [recommend] does not refuse a negative target index: a target [t]
    between [-n] and [-1], [n] being the number of columns of the item
    store, is scored as the item in column [n + t], whether that index was
    asked for or not. *)
Theorem scores_negative_target
    (st : state) (d : event) (ts1 ts2 : list Z) (t : Z) :
  let n := ncols (store_rows (i_mat st)) in
  (- Z.of_nat n <= t < 0)%Z ->
  scores st d (ts1 ++ t :: ts2) =
  scores st d (ts1 ++ (Z.of_nat n + t)%Z :: ts2).
Proof.
  intros n Ht. unfold scores.
  by rewrite (candidates_negative_target st d ts1 ts2 t Ht).
Qed.

(** ** The residual of a projection onto an orthonormal basis *)

Lemma columns_columns (r c : nat) (M : matrix) :
  has_shape r c M -> (0 < c)%nat -> columns (columns M) = M.
Proof.
  intros HM Hc. destruct (decide (r = 0%nat)) as [->|Hr].
  { destruct HM as [Hn _]. destruct M; [done|]. cbn in Hn. lia. }
  rewrite (columns_shape r c M) by (done || lia).
  assert (Hs : has_shape c r (map (column M) (seq 0 c))).
  { split.
    - unfold nrows. by rewrite length_map, length_seq.
    - apply Forall_map, Forall_forall. intros j _. cbn.
      rewrite length_column. apply HM. }
  rewrite (columns_shape c r _ Hs) by lia.
  apply (nth_ext _ _ [] []).
  { rewrite length_map, length_seq. symmetry. apply HM. }
  intros i Hi. rewrite length_map, length_seq in Hi.
  rewrite (nth_indep _ _ (column (map (column M) (seq 0 c)) 0))
    by (by rewrite length_map, length_seq).
  rewrite (map_nth (column (map (column M) (seq 0 c)))), seq_nth by done.
  cbn. unfold column at 1. rewrite map_map.
  apply (nth_ext _ _ 0 0).
  { rewrite length_map, length_seq. symmetry. by apply (shape_nth r c M). }
  intros j Hj. rewrite length_map, length_seq in Hj.
  rewrite (nth_indep _ _ ((fun x => nth i (column M x) 0) 0%nat))
    by (by rewrite length_map, length_seq).
  rewrite (map_nth (fun x => nth i (column M x) 0)), seq_nth by done.
  cbn. apply nth_column.
Qed.

Lemma nth_zip_with_minus (a b : vector) (i : nat) :
  (i < length a)%nat -> (i < length b)%nat ->
  nth i (zip_with Rminus a b) 0 = nth i a 0 - nth i b 0.
Proof.
  revert b i. induction a as [|x a IH]; intros [|y b] [|i]; cbn;
    try lia; [done|].
  intros. apply IH; lia.
Qed.

Lemma nth_mat_sub (M N : matrix) (i : nat) :
  (i < length M)%nat -> (i < length N)%nat ->
  nth i (mat_sub M N) [] = zip_with Rminus (nth i M []) (nth i N []).
Proof.
  unfold mat_sub. revert N i. induction M as [|x a IH]; intros [|y b] [|i]; cbn;
    try lia; [done|].
  intros. apply IH; lia.
Qed.

Lemma nth_identity (n i : nat) :
  (i < n)%nat -> nth i (identity n) [] = zeros i ++ 1 :: zeros (n - S i).
Proof.
  intros Hi. unfold identity, diag. rewrite length_replicate.
  rewrite nth_lookup, list_lookup_imap, lookup_replicate_2 by done. done.
Qed.

(** the rows of [identity r - u u^T] *)
Lemma residual_projector_rows (r c : nat) (u uut : matrix) (i : nat) :
  has_shape r c u -> (0 < c)%nat ->
  mat_mul u (transpose u) = Ok uut -> (i < r)%nat ->
  length (nth i (mat_sub (identity r) uut) []) = r /\
  forall m, (m < r)%nat ->
    nth m (nth i (mat_sub (identity r) uut) []) 0 =
    (if decide (i = m) then 1 else 0) - dot (nth i u []) (nth m u []).
Proof.
  intros Hu Hc Hm Hi. apply mat_mul_rows in Hm.
  unfold transpose in Hm. rewrite (columns_columns r c u) in Hm by done.
  assert (Hlen : length u = r) by apply Hu.
  assert (Hrow : nth i uut [] = map (fun c0 => dot (nth i u []) c0) u).
  { subst uut.
    set (F := fun row : vector => map (fun c0 => dot row c0) u).
    rewrite (nth_indep _ _ (F [])) by (rewrite length_map; lia).
    by rewrite (map_nth F). }
  rewrite nth_mat_sub; cycle 1.
  { unfold identity, diag. by rewrite length_imap, length_replicate. }
  { subst uut. rewrite length_map. lia. }
  rewrite nth_identity, Hrow by done.
  assert (Hl1 : length (zeros i ++ 1 :: zeros (r - S i)) = r).
  { unfold zeros. rewrite length_app. cbn. rewrite !length_replicate. lia. }
  split.
  - rewrite length_zip_with, Hl1, length_map. lia.
  - intros m Hmr. rewrite nth_zip_with_minus by (rewrite ?Hl1, ?length_map; lia).
    rewrite nth_diag_row. f_equal.
    set (G := fun c0 : vector => dot (nth i u []) c0).
    rewrite (nth_indep _ _ (G [])) by (rewrite length_map; lia).
    by rewrite (map_nth G).
Qed.

Lemma dot_rows_entries (r c : nat) (u : matrix) (i m : nat) :
  has_shape r c u -> (i < r)%nat -> (m < r)%nat ->
  dot (nth i u []) (nth m u []) = bigsum c (fun l => entry u i l * entry u m l).
Proof.
  intros Hu Hi Hm.
  by rewrite (dot_bigsum _ _ c) by (by apply (shape_nth r c u)).
Qed.

Lemma bigsum_minus (n : nat) (f g : nat -> float) :
  bigsum n (fun i => f i - g i) = bigsum n f - bigsum n g.
Proof. induction n as [|n IH]; cbn; [lra|]. rewrite IH. lra. Qed.

(** [| (I - u u^T) y |^2 = |y|^2 - |u^T y|^2] for orthonormal columns *)
Lemma residual_sumsq (r c : nat) (u uut : matrix) (y : vector) :
  has_shape r c u -> (0 < c)%nat -> orthonormal_columns c u ->
  mat_mul u (transpose u) = Ok uut -> length y = r ->
  sumsq (map (fun row => dot row y) (mat_sub (identity r) uut)) =
  sumsq y - bigsum c (fun l => dot (column u l) y * dot (column u l) y).
Proof.
  intros Hu Hc Horth Hm Hy.
  set (X := mat_sub (identity r) uut).
  assert (HX : length X = r).
  { subst X. unfold mat_sub. rewrite length_zip_with.
    apply mat_mul_rows in Hm. subst uut.
    unfold identity, diag. rewrite length_imap, length_replicate, length_map.
    destruct Hu as [Hn _]. unfold nrows in Hn. lia. }
  set (w := fun l => bigsum r (fun m => entry u m l * nth m y 0)).
  assert (Hw : forall l, dot (column u l) y = w l).
  { intros l. rewrite (dot_bigsum _ _ r)
      by (done || (rewrite length_column; apply Hu)).
    apply bigsum_ext. intros m _. by rewrite nth_column. }
  assert (Hrow : forall i, (i < r)%nat ->
    dot (nth i X []) y = nth i y 0 - bigsum c (fun l => entry u i l * w l)).
  { intros i Hi.
    destruct (residual_projector_rows r c u uut i Hu Hc Hm Hi) as [Hl He].
    fold X in Hl, He.
    rewrite (dot_bigsum _ _ r) by done.
    rewrite (bigsum_ext r _ (fun m =>
      (if decide (m = i) then nth m y 0 else 0) -
      bigsum c (fun l => entry u i l * (entry u m l * nth m y 0)))).
    2:{ intros m Hmr. rewrite He, (dot_rows_entries r c) by done.
        rewrite Rmult_minus_distr_r. f_equal.
        - destruct (decide (i = m)) as [->|Hne].
          + rewrite decide_True by done. lra.
          + rewrite decide_False by auto. lra.
        - rewrite Rmult_comm, <- bigsum_scale. apply bigsum_ext. intros l _. lra. }
    rewrite bigsum_minus, bigsum_delta by done. f_equal.
    rewrite bigsum_swap. apply bigsum_ext. intros l _. unfold w.
    by rewrite bigsum_scale. }
  rewrite (sumsq_nth y), Hy. unfold sumsq.
  rewrite map_map, (sum_map_nth _ X []), HX.
  rewrite (bigsum_ext r _ (fun i =>
    nth i y 0 * nth i y 0
    - 2 * bigsum c (fun l => w l * (entry u i l * nth i y 0))
    + bigsum c (fun l => bigsum c (fun l' =>
        (w l * w l') * (entry u i l * entry u i l'))))).
  2:{ intros i Hi. cbn beta. rewrite Hrow by done.
      set (S1 := bigsum c (fun l => entry u i l * w l)).
      replace (bigsum c (fun l => w l * (entry u i l * nth i y 0)))
        with (nth i y 0 * S1).
      2:{ unfold S1. rewrite <- bigsum_scale. apply bigsum_ext. intros l _. lra. }
      replace (bigsum c (fun l => bigsum c (fun l' =>
                 w l * w l' * (entry u i l * entry u i l'))))
        with (S1 * S1).
      2:{ unfold S1. rewrite bigsum_mul. apply bigsum_ext. intros l _.
          apply bigsum_ext. intros l' _. lra. }
      lra. }
  rewrite bigsum_plus, bigsum_minus, bigsum_scale.
  assert (E2 : bigsum r (fun i => bigsum c (fun l =>
                 w l * (entry u i l * nth i y 0))) = bigsum c (fun l => w l * w l)).
  { rewrite bigsum_swap. apply bigsum_ext. intros l _.
    rewrite bigsum_scale. done. }
  assert (E3 : bigsum r (fun i => bigsum c (fun l => bigsum c (fun l' =>
                 (w l * w l') * (entry u i l * entry u i l'))))
               = bigsum c (fun l => w l * w l)).
  { rewrite bigsum_swap. apply bigsum_ext. intros l Hl.
    rewrite bigsum_swap.
    transitivity (bigsum c (fun l' =>
      if decide (l' = l) then w l * w l' else 0)).
    { apply bigsum_ext. intros l' Hl'. rewrite bigsum_scale.
      specialize (Horth l l' Hl Hl').
      rewrite (dot_bigsum _ _ r) in Horth
        by (rewrite length_column; apply Hu).
      rewrite (bigsum_ext r _ (fun i => entry u i l * entry u i l')) in Horth
        by (intros i _; by rewrite !nth_column).
      rewrite Horth.
      destruct (decide (l = l')) as [->|Hne].
      - rewrite decide_True by done. lra.
      - rewrite decide_False by auto. lra. }
    by rewrite (bigsum_delta c l (fun l' => w l * w l')). }
  rewrite E2, E3.
  rewrite (bigsum_ext c (fun l => dot (column u l) y * dot (column u l) y)
             (fun l => w l * w l)) by (intros l _; by rewrite Hw).
  lra.
Qed.

(** ** The range of the scores *)


Lemma sumsq_normalize_le (v : vector) : sumsq (normalize v) <= 1.
Proof.
  unfold normalize, sumsq.
  pose proof (sum_squares_nonneg v) as Hq.
  case_decide as Hn.
  - unfold norm in Hn. apply sqrt_eq_0 in Hn; [|done].
    rewrite sum_squares_scaled by lra. rewrite Hn. lra.
  - rewrite sum_squares_scaled by done. unfold norm in *.
    rewrite sqrt_sqrt by done.
    set (q := sum (map (fun x => x * x) v)) in *.
    assert (Hq' : q <> 0) by (intros E; apply Hn; rewrite E; apply sqrt_0).
    replace (q / q) with 1 by (field; done). lra.
Qed.

Lemma bigsum_squares_nonneg (n : nat) (f : nat -> float) :
  0 <= bigsum n (fun l => f l * f l).
Proof.
  rewrite <- (bigsum_zero n). apply bigsum_le. intros i _. nra.
Qed.

Lemma setitem_nonempty (a a' : vector) (i : Z) (v : float) :
  setitem a i v = Ok a' -> a' <> [].
Proof.
  unfold setitem, norm_index. intros H Ha'.
  assert (Hl : length a = 0%nat).
  { destruct (if bool_decide (0 <= i < Z.of_nat (length a))%Z then _ else _);
      [|done].
    injection H as <-. apply (f_equal length) in Ha'.
    by rewrite length_insert in Ha'. }
  rewrite Hl in H. cbn in H.
  rewrite !bool_decide_eq_false_2 in H by lia. done.
Qed.

Lemma length_take_indices (n : nat) (js : list Z) (cs : list nat) :
  take_indices n js = Ok cs -> length cs = length js.
Proof.
  revert cs. induction js as [|j js IH]; intros cs; cbn.
  - by intros [= <-].
  - destruct (norm_index n j); [|done].
    destruct (take_indices n js) as [cs'|]; [|done]. cbn.
    intros [= <-]. cbn. f_equal. by apply IH.
Qed.

Lemma ncols_candidates (st : state) (d : event) (ts : list Z) (Y : matrix) :
  candidates st d ts = Ok Y -> ncols Y = length ts.
Proof.
  unfold candidates, select_columns. intros H.
  destruct (take_indices _ ts) as [cs|]; [cbn in H|done].
  destruct (user d) as [cu|]; [cbn in H|done].
  destruct (others d) as [co|]; [cbn in H|done].
  destruct (u_index d) as [u|]; [cbn in H|done].
  destruct (setitem _ u 1) as [u'|] eqn:Hu; [cbn in H|done].
  injection H as <-. apply setitem_nonempty in Hu.
  destruct u' as [|x u']; [done|]. cbn. apply length_replicate.
Qed.

(** X18. When the basis [U] has [k] rows and [ell] orthonormal columns, as
    the left factor of an SVD has, a request that [recommend] answers gives
    [scores2recos] one score for each target, and every score lies between
    0 and 1. *)
Theorem recommend_scores_bounded
    (st : state) (d : event) (ts : list Z) (at_ : Z) (u : matrix) (r : recos) :
  U st = Some u -> has_shape k ell u -> orthonormal_columns ell u ->
  recommend recos scores2recos st d ts at_ = Ok r ->
  exists sc, scores st d ts = Ok sc /\ r = scores2recos sc ts at_ /\
    length sc = length ts /\ Forall (fun x => 0 <= x <= 1) sc.
Proof.
  intros HU Hu Horth. unfold recommend, scores.
  destruct (candidates st d ts) as [Y0|] eqn:HY0; [cbn [bind]|done].
  destruct (mat_mul (R st) Y0) as [Y1|] eqn:HY1; [cbn [bind]|done].
  destruct (normalize_columns Y1) as [Y2|] eqn:HY2; [cbn [bind]|done].
  unfold basis. rewrite HU. cbn [bind].
  destruct (residual_projector u) as [X|] eqn:HX; [cbn [bind]|done].
  destruct (mat_mul X Y2) as [A|] eqn:HA; [cbn [bind]|done].
  intros [= <-]. eexists. split; [done|]. split; [done|].
  (* the residual projector *)
  unfold residual_projector in HX.
  destruct (mat_mul u (transpose u)) as [uut|] eqn:Huut; [cbn [bind] in HX|done].
  case_decide; [|done].
  assert (HXdef : X = mat_sub (identity k) uut) by congruence. clear HX.
  assert (Hell : (0 < ell)%nat) by (rewrite ell_eq; lia).
  assert (Hk : (0 < k)%nat) by (pose proof k_positive; lia).
  assert (HXl : length X = k).
  { subst X. unfold mat_sub. rewrite length_zip_with.
    unfold identity, diag. rewrite length_imap, length_replicate.
    unfold nrows in *. lia. }
  assert (HXc : ncols X = k).
  { destruct (residual_projector_rows k ell u uut 0 Hu Hell Huut Hk) as [Hl _].
    rewrite <- HXdef in Hl. destruct X; [cbn in HXl; lia|done]. }
  (* the normalised candidates *)
  unfold normalize_columns in HY2. case_decide as Hn; [done|].
  injection HY2 as <-. unfold transpose in HA.
  set (N := map normalize (columns Y1)) in *.
  assert (HNs : has_shape (ncols Y1) (nrows Y1) N).
  { split.
    - unfold nrows, N, columns. by rewrite !length_map, length_seq.
    - apply Forall_map, Forall_map, Forall_forall. intros j _. cbn.
      unfold normalize. rewrite length_map. apply length_column. }
  assert (HY1r : nrows Y1 = k).
  { unfold mat_mul in HA. case_decide as E; [|done].
    rewrite HXc in E. rewrite E. unfold nrows, columns.
    rewrite length_map, length_seq. symmetry. by apply (ncols_shape _ _ _ HNs). }
  rewrite HY1r in HNs.
  apply mat_mul_rows in HA. rewrite (columns_columns _ _ _ HNs Hk) in HA.
  assert (HAc : ncols A = ncols Y1).
  { subst A. destruct X as [|row X']; [cbn in HXl; lia|]. cbn.
    rewrite length_map. apply HNs. }
  assert (HY1c : ncols Y1 = length ts).
  { destruct (mat_mul_shape _ _ _ HY1) as [_ Hc].
    destruct (R st) as [|row R'] eqn:HR.
    - apply mat_mul_rows in HY1. by subst Y1.
    - rewrite Hc by done. by apply (ncols_candidates st d). }
  split.
  { unfold columns. by rewrite !length_map, length_seq, HAc. }
  apply Forall_map, Forall_map, Forall_forall. intros j Hj. cbn.
  apply elem_of_seq in Hj. rewrite HAc in Hj.
  assert (Hcol : column A j = map (fun row => dot row (nth j N [])) X).
  { subst A. unfold column. rewrite map_map. apply map_ext. intros row.
    rewrite (nth_indep _ _ (dot row []))
      by (rewrite length_map; destruct HNs as [HNr _]; unfold nrows in HNr; lia).
    apply (map_nth (fun c => dot row c)). }
  assert (Hy : length (nth j N []) = k) by (apply (shape_nth _ _ _ _ HNs); lia).
  assert (Hle : sumsq (nth j N []) <= 1).
  { unfold N.
    rewrite (nth_indep _ _ (normalize []))
      by (destruct HNs as [HNr _]; unfold nrows, N in HNr; lia).
    rewrite (map_nth normalize). apply sumsq_normalize_le. }
  unfold norm. rewrite Hcol. subst X.
  change (sum (map (fun x => x * x) ?v)) with (sumsq v).
  rewrite (residual_sumsq k ell u uut _ Hu Hell Horth Huut Hy).
  pose proof (bigsum_squares_nonneg ell (fun l => dot (column u l) (nth j N []))).
  split; [apply sqrt_pos|].
  rewrite <- sqrt_1. apply sqrt_le_1_alt. lra.
Qed.

End Scores.

Section Experiment.

Import Runner.

Variable sample : Type.

(** ** The split of the stream *)

(** X19. For counts that are not negative, the three parts that [__run]
    hands to [fit] and to [evaluate] are consecutive pieces of the stream
    that together make up all of it, in order: the first [n_batch_train]
    samples, the next [n_batch_test] samples and the rest; a stream that is
    too short is cut from the end, no sample is used twice or dropped. *)
Theorem run_parts_partition (data : data_t sample) :
  (0 <= n_batch_train data)%Z -> (0 <= n_batch_test data)%Z ->
  let '(train, test, rest) := run_parts data in
  train ++ test ++ rest = samples data /\
  length train = Nat.min (length (samples data)) (Z.to_nat (n_batch_train data)) /\
  length train + length test =
    Nat.min (length (samples data))
            (Z.to_nat (n_batch_train data) + Z.to_nat (n_batch_test data)).
Proof.
  intros Ha Hb. unfold run_parts, slice_to, slice, slice_from, slice_bound.
  rewrite !bool_decide_eq_false_2 by lia.
  rewrite Z2Nat.inj_add by lia.
  set (l := samples data). set (a := Z.to_nat (n_batch_train data)).
  set (t := Z.to_nat (n_batch_test data)). set (n := length l).
  assert (E : drop (n `min` a) (take (n `min` (a + t)) l)
              = take (n `min` (a + t) - n `min` a) (drop (n `min` a) l)).
  { by rewrite skipn_firstn_comm. }
  split; [|split].
  - rewrite E.
    transitivity (take (n `min` a) l ++ drop (n `min` a) l); [|apply take_drop].
    f_equal.
    transitivity (take (n `min` (a + t) - n `min` a) (drop (n `min` a) l)
                  ++ drop (n `min` (a + t) - n `min` a) (drop (n `min` a) l));
      [|apply take_drop].
    f_equal. rewrite drop_drop. f_equal. lia.
  - rewrite length_take. fold n. lia.
  - rewrite length_drop, !length_take. fold n. lia.
Qed.

End Experiment.

(** * The model on concrete events *)

Section Examples.

Local Open Scope R_scope.

(** ** The small run *)

Lemma check_registered_unchanged_ex :
  check rnd_ex st_ex d_ex = (st_ex, Ok ()).
Proof.
  apply (check_registered_unchanged rnd_ex st_ex d_ex 0 0).
  - reflexivity.
  - reflexivity.
  - eexists. vm_compute. reflexivity.
  - eexists. vm_compute. reflexivity.
Defined.



Lemma recommend_before_update_raises_ex :
  exists e,
    recommend (list (Z * float)) scores2recos_spec st_ex d_ex [0%Z] 10 = Raise e.
Proof.
  apply (recommend_before_update_raises rnd_ex _ scores2recos_spec st_ex).
  apply never_updated_check, never_updated_init.
Defined.



(** C3 fails as stated: for the registered user 0 and item 0 with item
    context [5], [update] assembles [1; 1; 5] (identity of the item, then its
    context), where the order of the specification gives [1; 5; 1]. And not
    every event has a feature vector, be its keys registered: the keys 10
    and 20 are registered as the first user and the first item, and are no
    positions in identity blocks of one slot, [update] raises [IndexError]. *)
Lemma feature_vector_not_spec_layout :
  n_user st_ex = 1%nat /\ n_item st_ex = 1%nat /\
  feature_vector st_ex d_ex = Ok [1; 1; 5] /\
  spec_layout 1 1 0 0 [] [] [5] = [1; 5; 1] /\
  feature_vector st_ex d_ex <> Ok (spec_layout 1 1 0 0 [] [] [5]) /\
  check rnd_ex (init rnd_ex c_ex 0) d_far = (st_far, Ok ()) /\
  is_Some (users st_far !! 10%Z) /\ is_Some (items st_far !! 20%Z) /\
  n_user st_far = 1%nat /\ n_item st_far = 1%nat /\
  feature_vector st_far d_far = Raise IndexError.
Proof.
  split; [reflexivity|]. split; [reflexivity|].
  split; [reflexivity|]. split; [reflexivity|].
  split.
  { change (feature_vector st_ex d_ex) with (Ok [1; 1; 5]).
    change (spec_layout 1 1 0 0 [] [] [5]) with [1; 5; 1].
    intros [= H1 H2]. lra. }
  split; [vm_compute; reflexivity|].
  split; [eexists; vm_compute; reflexivity|].
  split; [eexists; vm_compute; reflexivity|].
  split; [reflexivity|]. split; [reflexivity|].
  vm_compute. reflexivity.
Qed.

Lemma feature_vector_layout_ex :
  feature_vector st_ex d_ex = Ok (code_layout 1 1 0 0 [] [] [5]) /\
  forall (target_i_indices : list Z) (i_sel : matrix),
    select_columns (store_rows (i_mat st_ex)) target_i_indices = Ok i_sel ->
    candidates st_ex d_ex target_i_indices =
      Ok (map (fun x => replicate (length target_i_indices) x)
              (one_hot 1 0 ++ [] ++ []) ++ i_sel).
Proof.
  apply (feature_vector_layout st_ex d_ex 0 0 [] [] [5]);
    try reflexivity; vm_compute; lia.
Defined.

(** C2 does not hold of the code. After the first item, with context [5],
    was registered, [i_mat] is the column [0; 5]: the identity row comes
    first, and the identity entry of the item is zero, not one. The
    registration of a second item raises [ValueError] when the store is
    stacked: the item is in the registry, and [i_mat] has no column for
    it. *)
Lemma i_mat_identity_rows_zero :
  i_mat st_ex = Dense [[0]; [5]] /\
  column (store_rows (i_mat st_ex)) 0 = [0; 5] /\
  snd (check rnd_ex st_ex d_ex') = Raise ValueError /\
  is_Some (items st_ex' !! 1%Z) /\
  i_mat st_ex' = Dense [[0]; [5]].
Proof.
  split; [reflexivity|]. split; [reflexivity|].
  split; [vm_compute; reflexivity|].
  split; [eexists; vm_compute; reflexivity|]. reflexivity.
Qed.

(** ** The first update *)

Lemma project_ex : project st_ex d_ex = Ok v_ex.
Proof. vm_compute. reflexivity. Qed.

Lemma v_ex_eq : v_ex = 5 :: zeros (k - 1).
Proof.
  vm_compute. repeat (apply f_equal2; [lra|]). reflexivity.
Qed.

Lemma norm_cons_zeros (x : float) (n : nat) :
  0 <= x -> norm (x :: zeros n) = x.
Proof.
  intros Hx. unfold norm. cbn [map].
  change (sum (?a :: ?l)) with (a + sum l).
  rewrite sum_squares_zero.
  - rewrite Rplus_0_r. by apply sqrt_square.
  - unfold zeros. by apply Forall_replicate.
Qed.

Lemma norm_v_ex : norm v_ex = 5.
Proof. rewrite v_ex_eq. apply norm_cons_zeros. lra. Qed.

Lemma y_ex_eq : y_ex = 1 :: zeros (k - 1).
Proof.
  unfold y_ex, normalize. rewrite norm_v_ex, v_ex_eq.
  rewrite decide_False by lra.
  cbn [map]. f_equal; [lra|].
  unfold zeros. generalize (k - 1)%nat. intros n.
  induction n as [|n IH]; cbn; [done|]. rewrite IH. f_equal. lra.
Qed.

Lemma observe_ex : observe st_ex d_ex = Ok y_ex.
Proof. unfold observe. rewrite project_ex. reflexivity. Qed.

Lemma length_y_ex : length y_ex = k.
Proof.
  unfold y_ex, normalize, v_ex. rewrite !length_map. vm_compute. reflexivity.
Qed.

Lemma free_slot_zeros : free_slot (zeros2 k ell) = 0%nat.
Proof.
  unfold free_slot, zero_cols.
  replace (seq 0 (ncols (zeros2 k ell))) with (0%nat :: seq 1 5)
    by (vm_compute; reflexivity).
  rewrite filter_cons_True; [done|].
  apply forallb_forall. intros x Hx.
  replace (column (zeros2 k ell) 0) with (replicate k 0) in Hx
    by (vm_compute; reflexivity).
  apply list_elem_of_In, elem_of_replicate in Hx as [-> _].
  apply isclose_zero.
Qed.

Lemma B_st_ex : B st_ex = zeros2 k ell.
Proof. vm_compute. reflexivity. Qed.

Lemma set_column_ex :
  exists b, set_column (B st_ex) (free_slot (B st_ex)) y_ex = Ok b.
Proof.
  rewrite B_st_ex, free_slot_zeros.
  unfold set_column. rewrite decide_True by (vm_compute; lia).
  rewrite decide_True by (rewrite length_y_ex; reflexivity).
  by eexists.
Qed.

Lemma has_shape_u_ex : has_shape k ell u_ex.
Proof. split; [reflexivity|]. vm_compute. repeat constructor. Qed.

Lemma set_column_b_ex :
  set_column (B st_ex) (free_slot (B st_ex)) y_ex = Ok b_ex.
Proof.
  rewrite B_st_ex, free_slot_zeros.
  unfold set_column. rewrite decide_True by (vm_compute; lia).
  rewrite decide_True by (rewrite length_y_ex; reflexivity).
  reflexivity.
Qed.

(** the smallest singular value is zero, and so is its power *)
Lemma radicands_s_ex : Forall (fun x => 0 <= x * x - pow_ex 0) s_ex.
Proof. unfold pow_ex, s_ex. repeat constructor; lra. Qed.

Lemma update_ex : update svd_ex pow_ex st_ex d_ex = (st_up, Ok ()).
Proof.
  unfold st_up, update. rewrite observe_ex, set_column_b_ex.
  unfold svd_ex.
  destruct (rebuild_completes pow_ex u_ex s_ex k 0 has_shape_u_ex k_positive
              eq_refl eq_refl radicands_s_ex) as [_ [b' ->]].
  reflexivity.
Qed.

Lemma svd_shapes_ex : svd_shapes svd_ex.
Proof. intros M u s v _ _ [= <- <- <-]. split; reflexivity. Qed.

Lemma reachable_st_ex : reachable rnd_ex svd_ex pow_ex st_ex.
Proof. apply reachable_check, reachable_init. Qed.

Lemma st_up_fields :
  i_mat st_up = i_mat st_ex /\
  n_user st_up = n_user st_ex /\
  n_item st_up = n_item st_ex /\
  items st_up = items st_ex /\
  U st_up = Some (truncate_basis u_ex).
Proof.
  destruct (update_frame svd_ex pow_ex st_ex d_ex) as (Hi & _ & Hn & Hni & Hit).
  destruct (update_basis svd_ex pow_ex _ _ _ update_ex) as (b & u & s & v & Hs & HU).
  unfold svd_ex in Hs. injection Hs as <- <- <-.
  repeat split; assumption.
Qed.


(** ** Requests after the first update *)

Lemma R_st_up : R st_up = R st_ex.
Proof.
  unfold st_up. by destruct (update_frame svd_ex pow_ex st_ex d_ex) as (_ & -> & _).
Qed.

(** a request for the registered slot 0 is answered *)
Lemma recommend_known_target_ex :
  exists r,
    recommend (list (Z * float)) scores2recos_spec st_up d_ex [0%Z] 10 = Ok r.
Proof.
  destruct st_up_fields as (Hi & Hn & Hni & Hit & HU).
  unfold recommend.
  replace (candidates st_up d_ex [0%Z]) with (Ok [[1]; [0]; [5]])
    by (unfold candidates; rewrite Hi, Hn; vm_compute; reflexivity).
  cbn [bind]. rewrite R_st_up.
  unfold mat_mul at 1. rewrite decide_True by (vm_compute; reflexivity).
  cbn [bind].
  set (Y1 := map _ (R st_ex)).
  assert (HY1 : columns Y1 = [column Y1 0]).
  { unfold columns. replace (ncols Y1) with 1%nat by (vm_compute; reflexivity).
    reflexivity. }
  unfold normalize_columns.
  rewrite decide_False by (vm_compute; discriminate).
  cbn [bind]. unfold basis. rewrite HU. cbn [bind].
  unfold residual_projector, mat_mul at 1.
  rewrite decide_True by (vm_compute; reflexivity).
  cbn [bind]. rewrite decide_True by (vm_compute; reflexivity).
  cbn [bind]. unfold mat_mul.
  rewrite decide_True; [by eexists|].
  rewrite HY1. unfold transpose, columns, nrows. rewrite length_map, length_seq.
  cbn [map ncols]. unfold normalize. rewrite length_map, length_column.
  vm_compute. reflexivity.
Qed.

(** C1 fails as stated: once the model was updated, a request for the
    registered slot 0 is answered, but a request that also names the slot 7,
    which was never registered, raises [IndexError] instead of scoring slot
    0 alone; and a request that names only slot 7 raises too instead of
    returning the empty list. *)
Lemma recommend_unknown_target_not_excluded :
  items st_up !! 7%Z = None /\
  (exists r,
     recommend (list (Z * float)) scores2recos_spec st_up d_ex [0%Z] 10 = Ok r) /\
  recommend (list (Z * float)) scores2recos_spec st_up d_ex [0%Z; 7%Z] 10
    = Raise IndexError /\
  recommend (list (Z * float)) scores2recos_spec st_up d_ex [7%Z] 10
    = Raise IndexError.
Proof.
  destruct st_up_fields as (Hi & Hn & Hni & Hit & HU).
  split; [rewrite Hit; vm_compute; reflexivity|].
  split; [apply recommend_known_target_ex|].
  unfold recommend, candidates. rewrite Hi.
  split; vm_compute; reflexivity.
Qed.

Lemma recommend_unknown_target_raises_ex :
  recommend (list (Z * float)) scores2recos_spec st_up d_ex [0%Z; 7%Z] 10
    = Raise IndexError.
Proof.
  apply (recommend_unknown_target_raises rnd_ex svd_ex pow_ex _ scores2recos_spec
           st_up d_ex [0%Z; 7%Z] 10 7).
  - apply reachable_update, reachable_st_ex.
  - apply elem_of_cons. right. apply elem_of_cons. left. reflexivity.
  - destruct st_up_fields as (_ & _ & -> & _). vm_compute. discriminate.
Defined.

(** ** Norm of the observation *)

Lemma observation_unit_norm_ex :
  observe st_ex d_ex = Ok (normalize v_ex) /\ norm (normalize v_ex) = 1.
Proof.
  apply (observation_unit_norm st_ex d_ex v_ex).
  - apply project_ex.
  - rewrite norm_v_ex. lra.
Defined.

Lemma project_c : project st_c d_c = Ok v_c.
Proof. vm_compute. reflexivity. Qed.

(** C6 fails as stated: with the columns of [R] drawn as ones (item
    context), twos (user) and threes (item), the event of user 0 and item 0
    with item context [-5] projects to the zero vector, which the
    normalisation leaves as it is; the observation written into [B] has norm
    0. *)
Lemma observation_zero_norm :
  project st_c d_c = Ok v_c /\
  Forall (fun x => x = 0) v_c /\
  observe st_c d_c = Ok (normalize v_c) /\
  norm (normalize v_c) = 0 /\
  norm (normalize v_c) <> 1.
Proof.
  assert (Hz : Forall (fun x => x = 0) v_c).
  { unfold v_c. apply Forall_replicate. lra. }
  assert (Hn : norm (normalize v_c) = 0) by (by apply norm_zero, normalize_zero).
  split; [apply project_c|]. split; [exact Hz|]. split.
  - unfold observe. rewrite project_c. reflexivity.
  - split; [exact Hn|]. rewrite Hn. lra.
Qed.

(** ** An update of a full sketch *)

Lemma isclose_two : isclose 2 0 = false.
Proof.
  unfold isclose, atol, rtol. apply bool_decide_eq_false_2.
  rewrite Rminus_0_r, Rabs_R0, Rabs_right by lra. lra.
Qed.

Lemma column_not_zero (M : matrix) (j i : nat) (x : float) :
  column M j !! i = Some x -> isclose x 0 = false ->
  forallb (fun x => isclose x 0) (column M j) <> true.
Proof.
  intros Hx Hc Hall. rewrite forallb_forall in Hall.
  rewrite Hall in Hc; [done|].
  by eapply list_elem_of_In, list_elem_of_lookup_2.
Qed.

Lemma free_slot_B_w : free_slot B_w = 5%nat.
Proof.
  unfold free_slot, zero_cols.
  replace (seq 0 (ncols B_w)) with [0; 1; 2; 3; 4; 5]%nat
    by (vm_compute; reflexivity).
  rewrite filter_cons_False
    by (apply (column_not_zero B_w 0 1 2); [vm_compute; reflexivity|apply isclose_two]).
  rewrite filter_cons_False
    by (apply (column_not_zero B_w 1 2 2); [vm_compute; reflexivity|apply isclose_two]).
  rewrite filter_cons_False
    by (apply (column_not_zero B_w 2 3 2); [vm_compute; reflexivity|apply isclose_two]).
  rewrite filter_cons_False
    by (apply (column_not_zero B_w 3 4 2); [vm_compute; reflexivity|apply isclose_two]).
  rewrite filter_cons_False
    by (apply (column_not_zero B_w 4 5 2); [vm_compute; reflexivity|apply isclose_two]).
  rewrite filter_cons_True; [done|].
  apply forallb_forall. intros x Hx.
  replace (column B_w 5) with (replicate k 0) in Hx by (vm_compute; reflexivity).
  apply list_elem_of_In, elem_of_replicate in Hx as [-> _].
  apply isclose_zero.
Qed.

Lemma project_w : project st_w d_ex = Ok v_ex.
Proof. vm_compute. reflexivity. Qed.

Lemma observe_w : observe st_w d_ex = Ok y_ex.
Proof. unfold observe. rewrite project_w. reflexivity. Qed.

Lemma set_column_w : set_column (B st_w) (free_slot (B st_w)) y_ex = Ok M_w.
Proof.
  change (B st_w) with B_w. rewrite free_slot_B_w.
  unfold set_column. rewrite decide_True by (vm_compute; lia).
  rewrite decide_True by (rewrite length_y_ex; vm_compute; reflexivity).
  reflexivity.
Qed.

Lemma M_w_eq :
  M_w = zip_with (fun r x => <[5%nat := x]> r) B_w (1 :: zeros (k - 1)).
Proof. unfold M_w. by rewrite y_ex_eq. Qed.

Ltac list_eq_lra :=
  repeat (apply f_equal2; [lra|]); reflexivity.

Ltac matrix_eq_lra :=
  repeat (apply f_equal2; [list_eq_lra|]); reflexivity.

Lemma is_svd_w : is_svd M_w u_w s_w v_id.
Proof.
  rewrite M_w_eq. constructor.
  - split; [vm_compute; reflexivity|]. vm_compute. repeat constructor.
  - split; [vm_compute; reflexivity|]. vm_compute. repeat constructor.
  - split; [vm_compute; reflexivity|]. vm_compute. repeat constructor.
  - intros j Hj.
    do 6 (destruct j as [|j]; [vm_compute; lra|]).
    cbn in Hj. lia.
  - intros i j Hi Hj.
    do 6 (destruct i as [|i];
          [do 6 (destruct j as [|j]; [vm_compute; lra|]); cbn in Hj; lia|]).
    cbn in Hi. lia.
  - intros i j Hij Hj.
    do 6 (destruct j as [|j];
          [do 6 (destruct i as [|i];
                 [first [lia | unfold s_w; cbn [nth]; lra]|]); lia|]).
    cbn in Hj. lia.
  - eexists. split; [vm_compute; reflexivity|].
    vm_compute. f_equal. matrix_eq_lra.
Qed.


(** ** The scalar power and the product *)

Lemma has_shape_u_w : has_shape k ell u_w.
Proof. split; [reflexivity|]. vm_compute. repeat constructor. Qed.

Lemma sqrt_small : sqrt (/ 10000000000000000) = / 100000000.
Proof. apply sqrt_lem_1; lra. Qed.

Lemma radicands_down : Forall (fun x => 0 <= x * x - pow_down 1) s_w.
Proof. unfold pow_down, s_w. repeat constructor; lra. Qed.



(** ** Registration, once more *)

Lemma width_ok_st_ex : width_ok c_ex st_ex.
Proof.
  apply (width_ok_check rnd_ex c_ex (init rnd_ex c_ex 0) st_ex d_ex).
  - apply width_ok_init.
  - vm_compute. reflexivity.
Qed.

Lemma register_user_columns_ex :
  column (R (register_user rnd_ex st_ex 1)) 1 =
  if decide (1 < n_user st_ex)%nat then column (R st_ex) 1
  else if decide (1%nat = n_user st_ex) then normal_col rnd_ex (gen st_ex)
  else column (R st_ex) (1 - 1).
Proof.
  apply (register_user_columns rnd_ex c_ex st_ex 1 1).
  apply width_ok_st_ex.
Defined.

(** the first item *)
Lemma register_item_ex :
  register_item rnd_ex st_user 0 d_ex = (st_ex, Ok ()).
Proof. vm_compute. reflexivity. Qed.

Lemma width_ok_st_user : width_ok c_ex st_user.
Proof.
  apply width_ok_register_user; [reflexivity|apply width_ok_init].
Qed.

Lemma register_item_columns_ex :
  column (R st_ex) 1 =
  if decide (1 < n_user st_user + ctx_user c_ex + ctx_others c_ex
                 + n_item st_user)%nat
  then column (R st_user) 1
  else if decide (1%nat = n_user st_user + ctx_user c_ex + ctx_others c_ex
                          + n_item st_user)%nat
  then normal_col rnd_ex (gen st_user)
  else column (R st_user) (1 - 1).
Proof.
  apply (register_item_columns rnd_ex c_ex st_user st_ex 0 d_ex 1).
  - apply width_ok_st_user.
  - reflexivity.
  - apply register_item_ex.
Defined.

(** the second item of the run with two item-context dimensions: the store
    of the first is three rows high, and the blocks that are stacked are of
    different heights *)
Lemma register_item_two :
  register_item rnd_ex st_two_user 1 d_two' = (st_two', Ok ()).
Proof. vm_compute. reflexivity. Qed.

Lemma register_item_grows_store_ex :
  has_shape (3 + 1) (1 + 1) (store_rows (i_mat st_two')) /\
  3%nat = (n_item st_two_user + length [7; 8])%nat /\
  column (store_rows (i_mat st_two')) 1 =
    zeros (n_item st_two_user + 1) ++ [7; 8] /\
  forall j, (j < 1)%nat ->
    column (store_rows (i_mat st_two')) j =
    take (n_item st_two_user) (column (store_rows (i_mat st_two_user)) j) ++
    0 :: drop (n_item st_two_user) (column (store_rows (i_mat st_two_user)) j).
Proof.
  apply (register_item_grows_store rnd_ex 3 1 st_two_user st_two' 1 d_two'
           [7; 8]).
  - split; [reflexivity|]. vm_compute. repeat constructor.
  - vm_compute. discriminate.
  - reflexivity.
  - apply register_item_two.
Defined.

Lemma check_registers_both_ex :
  (exists u i, u_index d_ex = Some u /\ i_index d_ex = Some i /\
     is_Some (users st_ex !! u) /\ is_Some (items st_ex !! i)) /\
  check rnd_ex st_ex d_ex = (st_ex, Ok ()).
Proof.
  apply (check_registers_both rnd_ex (init rnd_ex c_ex 0) st_ex d_ex).
  vm_compute. reflexivity.
Defined.

Lemma check_missing_context_marks_item_ex :
  snd (check rnd_ex st_ex d_no_ctx) = Raise KeyError /\
  is_Some (items (fst (check rnd_ex st_ex d_no_ctx)) !! 5%Z) /\
  n_item (fst (check rnd_ex st_ex d_no_ctx)) = (n_item st_ex + 1)%nat /\
  p (fst (check rnd_ex st_ex d_no_ctx)) = (p st_ex + 1)%nat /\
  i_mat (fst (check rnd_ex st_ex d_no_ctx)) = i_mat st_ex /\
  R (fst (check rnd_ex st_ex d_no_ctx)) = R st_ex /\
  forall d', u_index d' = Some 0%Z -> i_index d' = Some 5%Z ->
    check rnd_ex (fst (check rnd_ex st_ex d_no_ctx)) d' =
      (fst (check rnd_ex st_ex d_no_ctx), Ok ()).
Proof.
  apply (check_missing_context_marks_item rnd_ex st_ex d_no_ctx 0 5).
  - reflexivity.
  - eexists. vm_compute. reflexivity.
  - reflexivity.
  - vm_compute. reflexivity.
  - reflexivity.
Defined.

Lemma reachable_registry_ok_ex : registry_ok st_up.
Proof.
  apply (reachable_registry_ok rnd_ex svd_ex pow_ex st_up).
  apply reachable_update, reachable_st_ex.
Defined.

(** ** Updates, once more *)

(** an event whose user context has the size declared for the item context,
    and the other way round, is projected *)
Lemma update_checks_total_width_ex :
  exists v, project st_ex d_swapped = Ok v /\ length v = k.
Proof.
  apply (update_checks_total_width svd_ex pow_ex c_ex st_ex d_swapped
           [1; 5; 1] [5] [] []).
  - apply width_ok_st_ex.
  - reflexivity.
  - reflexivity.
  - reflexivity.
  - vm_compute. reflexivity.
  - reflexivity.
Defined.

Lemma update_missing_field_unchanged_ex :
  exists e, (e = KeyError \/ e = IndexError) /\
            update svd_ex pow_ex st_ex d_no_ctx = (st_ex, Raise e).
Proof.
  apply (update_missing_field_unchanged svd_ex pow_ex st_ex d_no_ctx).
  right. right. left. reflexivity.
Defined.

(** the index 1 was never registered: the entry of the user context is
    overwritten *)
Lemma feature_vector_unregistered_user_ex :
  feature_vector st_ex d_ghost =
    Ok (zeros (n_user st_ex) ++ <[0%nat := 1]> [9] ++ [] ++
        one_hot (n_item st_ex) 0 ++ [5]).
Proof.
  apply (feature_vector_unregistered_user st_ex d_ghost 0 0 [9] [] [5]).
  - reflexivity.
  - reflexivity.
  - reflexivity.
  - reflexivity.
  - reflexivity.
  - cbn. lia.
  - vm_compute. lia.
Defined.

Lemma update_svd_failure_ex :
  update svd_fail pow_ex st_ex d_ex = (set_B st_ex b_ex, Raise LinAlgError) /\
  column b_ex (free_slot (B st_ex)) = y_ex /\
  (forall j, j <> free_slot (B st_ex) -> column b_ex j = column (B st_ex) j) /\
  has_shape k ell b_ex.
Proof.
  apply (update_svd_failure svd_fail pow_ex k ell st_ex d_ex y_ex b_ex).
  - rewrite B_st_ex. apply has_shape_zeros2.
  - apply observe_ex.
  - apply set_column_b_ex.
  - reflexivity.
Defined.

Lemma reachable_sketch_ok_ex : sketch_ok st_up.
Proof.
  apply (reachable_sketch_ok rnd_ex svd_ex pow_ex st_up svd_shapes_ex).
  apply reachable_update, reachable_st_ex.
Defined.

Lemma well_formed_d_ex : well_formed c_ex d_ex.
Proof.
  split; [by eexists|]. split; [by eexists|].
  split; [|split]; eexists; split; reflexivity.
Qed.

Lemma update_after_clear_raises_ex :
  exists e, update svd_ex pow_ex st_cleared d_ex = (st_cleared, Raise e).
Proof.
  apply (update_after_clear_raises rnd_ex svd_ex pow_ex c_ex st_ex st_cleared
           [d_ex] d_ex).
  - apply width_ok_st_ex.
  - vm_compute. lia.
  - vm_compute. reflexivity.
  - apply well_formed_d_ex.
Defined.


(** ** Requests, once more *)

Lemma ncols_store_st_up : ncols (store_rows (i_mat st_up)) = 1%nat.
Proof.
  destruct st_up_fields as (-> & _). vm_compute. reflexivity.
Qed.

(** the target [-1] is scored as the item 0 *)
Lemma scores_negative_target_ex :
  scores st_up d_ex ([] ++ [(-1)%Z]) =
  scores st_up d_ex
    ([] ++ [(Z.of_nat (ncols (store_rows (i_mat st_up))) + -1)%Z]).
Proof.
  apply (scores_negative_target st_up d_ex [] [] (-1)).
  rewrite ncols_store_st_up. lia.
Defined.

Lemma orthonormal_columns_u_ex : orthonormal_columns ell u_ex.
Proof.
  intros a b Ha Hb. rewrite ell_eq in Ha, Hb.
  do 6 (destruct a as [|a];
        [do 6 (destruct b as [|b]; [vm_compute; lra|]); lia|]).
  lia.
Qed.

Lemma recommend_scores_bounded_ex :
  exists sc, scores st_up d_ex [0%Z] = Ok sc /\
    length sc = 1%nat /\ Forall (fun x => 0 <= x <= 1) sc.
Proof.
  destruct recommend_known_target_ex as [r Hr].
  destruct st_up_fields as (_ & _ & _ & _ & HU).
  rewrite (truncate_basis_id k u_ex has_shape_u_ex) in HU.
  destruct (recommend_scores_bounded _ scores2recos_spec st_up d_ex [0%Z] 10
              u_ex r HU has_shape_u_ex orthonormal_columns_u_ex Hr)
    as (sc & Hsc & _ & Hlen & Hall).
  exists sc. split; [exact Hsc|]. split; [exact Hlen|exact Hall].
Defined.

(** ** The split of a stream of five samples *)

Lemma run_parts_partition_ex :
  let '(train, test, rest) := Runner.run_parts data_ex in
  train ++ test ++ rest = Runner.samples data_ex /\
  length train =
    Nat.min (length (Runner.samples data_ex))
            (Z.to_nat (Runner.n_batch_train data_ex)) /\
  (length train + length test)%nat =
    Nat.min (length (Runner.samples data_ex))
            (Z.to_nat (Runner.n_batch_train data_ex)
             + Z.to_nat (Runner.n_batch_test data_ex)).
Proof.
  apply (run_parts_partition Z data_ex); cbn; lia.
Defined.

End Examples.

End OnlineSketch.
